(** * check-favicon: the helpers of [packages/check-favicon/src/helper.ts]

    A shallow embedding of [checkIcon], [mergeUrlAndPath],
    [parseSizesAttribute], [pathToMimeType], [bufferToDataUrl] and
    [readableStreamToBuffer], and the properties of them that the
    specification states.

    Conventions of the embedding.
    - A JavaScript [number] that the code uses as an integer (an HTTP status,
      a pixel count) is a [Z].
    - A JavaScript string is a [string]; every test the code performs on a
      string ([startsWith], [endsWith], [split('.')], the regular expression)
      looks for ASCII characters only, so the byte view and the UTF-16 view
      agree on them.
    - [T | undefined] and [T | null] are [option T].
    - An [async] function is a computation in the monad [M]: it threads the
      state of the outside world (what the observer has been told, which
      requests were sent) and either returns or throws; [await] is bind. *)

From Stdlib Require Import ZArith List Bool Lia.
From Stdlib Require Import Strings.String Strings.Ascii Strings.Byte.
From Stdlib Require Decimal DecimalString DecimalPos DecimalN.
Import ListNotations.

Local Open Scope string_scope.
Local Open Scope Z_scope.

(* ================================================================== *)
(** ** Completions and the monad of asynchronous computations *)

Inductive Error : Type :=
| TypeError_InvalidURL      (* thrown by [new URL(...)] *)
| FetchError                (* the fetcher's promise is rejected *)
| StreamError               (* [reader.read()] is rejected *)
| DecodeError.              (* [sharp(...).metadata()] is rejected *)

Inductive Completion (A : Type) : Type :=
| Return (a : A)
| Throw (e : Error).
Arguments Return {A} a.
Arguments Throw {A} e.

Definition M (W A : Type) : Type := W -> W * Completion A.

Definition ret {W A} (a : A) : M W A := fun w => (w, Return a).

Definition bind {W A B} (m : M W A) (k : A -> M W B) : M W B :=
  fun w => match m w with
           | (w', Return a) => k a w'
           | (w', Throw e) => (w', Throw e)
           end.

Definition lift {W A} (c : Completion A) : M W A := fun w => (w, c).

Declare Scope async_scope.
Delimit Scope async_scope with async.
Notation "'await' x <- m ;; k" := (bind m (fun x => k))
  (at level 61, x name, m at next level, right associativity) : async_scope.
Notation "m ;; k" := (bind m (fun _ => k))
  (at level 61, right associativity) : async_scope.

(* ================================================================== *)
(** ** JavaScript truthiness, as far as the code relies on it *)

Module Truthy.

(** [!!s] for [s : string | undefined | null]: the empty string is falsy. *)
Definition str (s : option string) : bool :=
  match s with
  | Some "" => false
  | Some _ => true
  | None => false
  end.

(** [!!n] for [n : number | undefined]: zero is falsy. *)
Definition num (n : option Z) : bool :=
  match n with
  | Some n => negb (n =? 0)
  | None => false
  end.

(** [n || null]. *)
Definition num_or_null (n : option Z) : option Z :=
  if num n then n else None.

(** [s || d]. *)
Definition str_or (s : option string) (d : string) : string :=
  match s with
  | Some s' => if str s then s' else d
  | None => d
  end.

End Truthy.

(* ================================================================== *)
(** ** String primitives *)

(** [s.startsWith(p)] *)
Definition startsWith (s p : string) : bool := String.prefix p s.

(** [s.endsWith('/')], by the last character. *)
Fixpoint endsWithChar (c : ascii) (s : string) : bool :=
  match s with
  | "" => false
  | String a "" => Ascii.eqb a c
  | String _ rest => endsWithChar c rest
  end.

(** [s.split(c)] for a one-character separator: never the empty list. *)
Fixpoint split (c : ascii) (s : string) : list string :=
  match s with
  | "" => [""]
  | String a rest =>
      if Ascii.eqb a c then "" :: split c rest
      else match split c rest with
           | [] => [String a ""]
           | seg :: segs => String a seg :: segs
           end
  end.

(** [arr.pop()]: the last element, [undefined] on the empty array. *)
Definition pop (l : list string) : option string :=
  match l with
  | [] => None
  | x :: xs => Some (last xs x)
  end.

(** Character classes, and the scanning of a string by a class. *)
Definition is_upper (c : ascii) : bool :=
  (("A" <=? c) && (c <=? "Z"))%char.
Definition is_lower (c : ascii) : bool :=
  (("a" <=? c) && (c <=? "z"))%char.
Definition is_letter (c : ascii) : bool := is_upper c || is_lower c.
Definition is_digit (c : ascii) : bool :=
  (("0" <=? c) && (c <=? "9"))%char.

Definition to_lower (c : ascii) : ascii :=
  if is_upper c then ascii_of_nat (nat_of_ascii c + 32) else c.

Fixpoint lowercase (s : string) : string :=
  match s with
  | "" => ""
  | String c rest => String (to_lower c) (lowercase rest)
  end.

Fixpoint forallb_string (p : ascii -> bool) (s : string) : bool :=
  match s with
  | "" => true
  | String c rest => p c && forallb_string p rest
  end.

(** The longest prefix whose characters satisfy [p], and what follows. *)
Fixpoint span (p : ascii -> bool) (s : string) : string * string :=
  match s with
  | "" => ("", "")
  | String c rest =>
      if p c then let (taken, left) := span p rest in (String c taken, left)
      else ("", s)
  end.

(* ================================================================== *)
(** ** MIME resolver *)

Definition pathToMimeType (path : string) : string :=
  let ext := pop (split "." path) in
  match ext with
  | Some "png" => "image/png"
  | Some "svg" => "image/svg+xml"
  | Some "ico" => "image/x-icon"
  | Some "jpg" => "image/jpeg"
  | Some "jpeg" => "image/jpeg"
  | _ => "application/octet-stream"
  end.

(* ================================================================== *)
(** ** Buffers and base64 *)

Definition Uint8Array := list byte.
Definition Buffer := list byte.

Module Base64.

Definition alphabet : string :=
  "ABCDEFGHIJKLMNOPQRSTUVWXYZabcdefghijklmnopqrstuvwxyz0123456789+/".

(** The character of a six-bit value. *)
Definition digit (n : N) : ascii :=
  match String.get (N.to_nat n) alphabet with
  | Some c => c
  | None => "="%char
  end.

Definition sextet (n : N) (shift : N) : ascii :=
  digit (N.land (N.shiftr n shift) 63).

(** Three bytes give four characters; a tail of one or two bytes is
    padded with [=]. *)
Fixpoint encode (bs : list byte) : string :=
  match bs with
  | [] => ""
  | [b1] =>
      let n := N.shiftl (Byte.to_N b1) 16 in
      String (sextet n 18) (String (sextet n 12) "==")
  | [b1; b2] =>
      let n := N.lor (N.shiftl (Byte.to_N b1) 16) (N.shiftl (Byte.to_N b2) 8) in
      String (sextet n 18) (String (sextet n 12) (String (sextet n 6) "="))
  | b1 :: b2 :: b3 :: rest =>
      let n := N.lor (N.lor (N.shiftl (Byte.to_N b1) 16)
                            (N.shiftl (Byte.to_N b2) 8)) (Byte.to_N b3) in
      String (sextet n 18) (String (sextet n 12)
        (String (sextet n 6) (String (sextet n 0) (encode rest))))
  end.

End Base64.

(** [buffer.toString('base64')] *)
Definition toString_base64 (b : Buffer) : string := Base64.encode b.

Definition bufferToDataUrl (buffer : Buffer) (mimeType : string) : string :=
  "data:" ++ mimeType ++ ";base64," ++ toString_base64 buffer.

Definition bytes_of_string (s : string) : list byte := list_byte_of_string s.

(* ================================================================== *)
(** ** Byte stream collector *)

(** A readable stream, seen from its reader: the chunks it will still
    deliver, in order, and whether it then closes or fails. *)
Record ReadableStream : Type := {
  pending : list Uint8Array;
  errored : bool
}.

(** What [reader.read()] resolves to. *)
Record ReadResult : Type := {
  value : option Uint8Array;
  done : bool
}.

Definition read (r : ReadableStream) : Completion ReadResult * ReadableStream :=
  match pending r with
  | c :: rest =>
      (Return {| value := Some c; done := false |},
       {| pending := rest; errored := errored r |})
  | [] =>
      if errored r then (Throw StreamError, r)
      else (Return {| value := None; done := true |}, r)
  end.

(** The [while (!done)] loop of [readableStreamToBuffer]; it runs once per
    pending chunk and once more for the end of the stream, so it is written
    by recursion on the pending chunks. A chunk is an object, hence truthy
    even when empty: every delivered chunk is pushed. *)
Fixpoint read_loop (pending : list Uint8Array) (errored : bool)
    (chunks : list Uint8Array) : Completion (list Uint8Array) :=
  match pending with
  | value :: rest => read_loop rest errored (chunks ++ [value])%list
  | [] => if errored then Throw StreamError else Return chunks
  end.

(** [new Uint8Array(n)]: [n] zero bytes. *)
Definition new_Uint8Array (n : nat) : Uint8Array := repeat x00 n.

(** [target.set(source, offset)], for a source that fits. *)
Definition set (target source : Uint8Array) (offset : nat) : Uint8Array :=
  (firstn offset target ++ source
     ++ skipn (offset + List.length source) target)%list.

(** [chunks.reduce((acc, chunk) => acc + chunk.length, 0)] *)
Definition total_length (chunks : list Uint8Array) : nat :=
  fold_left (fun acc chunk => (acc + List.length chunk)%nat) chunks 0%nat.

(** The [for (const chunk of chunks)] loop, on the pair of the array under
    construction and the offset. *)
Definition copy_chunks (chunks : list Uint8Array) (target : Uint8Array)
    (offset : nat) : Uint8Array * nat :=
  fold_left (fun st chunk =>
               (set (fst st) chunk (snd st), (snd st + List.length chunk)%nat))
            chunks (target, offset).

Definition readableStreamToBuffer (readableStream : ReadableStream)
  : Completion Buffer :=
  match read_loop (pending readableStream) (errored readableStream) [] with
  | Throw e => Throw e
  | Return chunks =>
      let concatenatedChunks := new_Uint8Array (total_length chunks) in
      Return (fst (copy_chunks chunks concatenatedChunks 0%nat))
  end.

(* ================================================================== *)
(** ** Icon outcome classifier *)

Record FetchResponse : Type := {
  status : Z;
  contentType : option string;
  readableStream : option ReadableStream
}.

Definition Fetcher (W : Type) : Type :=
  string -> option string -> M W FetchResponse.

(** The observer: eight callbacks acting on the world. *)
Record CheckIconProcessor (W : Type) : Type := {
  noHref : M W unit;
  icon404 : M W unit;
  cannotGet : Z -> M W unit;
  downloadable : M W unit;
  square : Z -> M W unit;
  notSquare : Z -> Z -> M W unit;
  rightSize : Z -> M W unit;
  wrongSize : Z -> M W unit
}.
Arguments noHref {W}.
Arguments icon404 {W}.
Arguments cannotGet {W}.
Arguments downloadable {W}.
Arguments square {W}.
Arguments notSquare {W}.
Arguments rightSize {W}.
Arguments wrongSize {W}.

(** The part of sharp's metadata that the code reads. *)
Module Metadata.
Record t : Type := { width : option Z; height : option Z }.
End Metadata.

Record CheckIconOutput : Type := {
  content : option string;
  url : option string;
  width : option Z;
  height : option Z
}.

Section Classifier.

(** [sharp(buffer).metadata()], the image decoder: an external
    collaborator, which either yields metadata or rejects. *)
Variable sharp_metadata : Buffer -> Completion Metadata.t.

Context {W : Type}.

Local Open Scope async_scope.

(** The events that follow [downloadable], decided on the metadata. *)
Definition report_dimensions (processor : CheckIconProcessor W)
    (meta : Metadata.t) (expectedWidthHeight : option Z) : M W unit :=
  match Metadata.width meta, Metadata.height meta with
  | Some meta_width, Some meta_height =>
      if Truthy.num (Some meta_width) && Truthy.num (Some meta_height) then
        if negb (meta_width =? meta_height) then
          notSquare processor meta_width meta_height
        else
          square processor meta_width ;;
          match expectedWidthHeight with
          | Some expected =>
              if Truthy.num (Some expected) then
                if meta_width =? expected then rightSize processor meta_width
                else wrongSize processor meta_width
              else ret tt
          | None => ret tt
          end
      else ret tt
  | _, _ => ret tt
  end.

Definition checkIcon (iconUrl : option string)
    (processor : CheckIconProcessor W) (fetcher : Fetcher W)
    (mimeType : option string) (expectedWidthHeight : option Z)
  : M W (option CheckIconOutput) :=
  match iconUrl with
  | None | Some "" =>
      noHref processor ;;
      ret None
  | Some iconUrl =>
      let no_content :=
        ret (Some {| content := None; url := Some iconUrl;
                     width := None; height := None |}) in
      await res <- fetcher iconUrl mimeType ;;
      if status res =? 404 then
        icon404 processor ;; no_content
      else if status res >=? 300 then
        cannotGet processor (status res) ;; no_content
      else
        match readableStream res with
        | Some stream =>
            downloadable processor ;;
            await rawContent <- lift (readableStreamToBuffer stream) ;;
            await meta <- lift (sharp_metadata rawContent) ;;
            let contentType :=
              Truthy.str_or (contentType res) (pathToMimeType iconUrl) in
            let content := bufferToDataUrl rawContent contentType in
            report_dimensions processor meta expectedWidthHeight ;;
            ret (Some {| content := Some content;
                         url := Some iconUrl;
                         width := Truthy.num_or_null (Metadata.width meta);
                         height := Truthy.num_or_null (Metadata.height meta) |})
        | None => no_content
        end
  end.

End Classifier.

(* ================================================================== *)
(** ** The recording observer and the logging fetcher *)

Module Event.
Inductive t : Type :=
| noHref
| icon404
| cannotGet (httpStatusCode : Z)
| downloadable
| square (widthHeight : Z)
| notSquare (width height : Z)
| rightSize (widthHeight : Z)
| wrongSize (widthHeight : Z).
End Event.

(** The world of one check: the events the observer received and the
    requests the fetcher sent, both in order. *)
Record World : Type := {
  events : list Event.t;
  requests : list (string * option string)
}.

Definition initial : World := {| events := []; requests := [] |}.

Definition emit (e : Event.t) : M World unit :=
  fun w =>
    ({| events := (events w ++ [e])%list; requests := requests w |},
     Return tt).

Definition recorder : CheckIconProcessor World := {|
  noHref := emit Event.noHref;
  icon404 := emit Event.icon404;
  cannotGet := fun s => emit (Event.cannotGet s);
  downloadable := emit Event.downloadable;
  square := fun n => emit (Event.square n);
  notSquare := fun w h => emit (Event.notSquare w h);
  rightSize := fun n => emit (Event.rightSize n);
  wrongSize := fun n => emit (Event.wrongSize n)
|}.

(** What is on the other side of the fetcher: for a request, a response or
    a failure. *)
Definition Server : Type := string -> option string -> Completion FetchResponse.

Definition fetcherOf (server : Server) : Fetcher World :=
  fun url contentType w =>
    ({| events := events w;
        requests := (requests w ++ [(url, contentType)])%list |},
     server url contentType).

(* ================================================================== *)
(** ** URL resolver *)

(** The three getters of a [URL] object that the code reads: [protocol] is
    the scheme followed by [:], [origin] the serialized origin, [href] the
    serialized URL. *)
Record URL : Type := {
  protocol : string;
  origin : string;
  href : string
}.

Section Resolver.

(** [new URL(input)], the platform's URL parser: it yields a URL object
    or throws a TypeError. *)
Variable new_URL : string -> Completion URL.

Definition mergeUrlAndPath (baseUrl absoluteOrRelativePath : string)
  : Completion string :=
  if startsWith absoluteOrRelativePath "http://"
     || startsWith absoluteOrRelativePath "https://" then
    Return absoluteOrRelativePath
  else
    match new_URL baseUrl with
    | Throw e => Throw e
    | Return url =>
        if startsWith absoluteOrRelativePath "//" then
          Return (protocol url ++ absoluteOrRelativePath)
        else if startsWith absoluteOrRelativePath "/" then
          Return (origin url ++ absoluteOrRelativePath)
        else
          Return (href url
                    ++ (if endsWithChar "/" (href url) then "" else "/")
                    ++ absoluteOrRelativePath)
    end.

End Resolver.

(** *** A URL parser for plain http(s) URLs

    The platform parser (the URL standard) restricted to inputs of the shape
    [scheme://host/path] where the scheme is [http] or [https] in any letter
    case, the host is made of dot-separated labels of ASCII letters, and the
    path is empty or made of [/], ASCII letters and digits, [-] and [_].
    On these the standard lower-cases the scheme and the host and gives the
    empty path as [/]; nothing else changes. Inputs outside this shape are
    answered with the TypeError here, so this parser stands for the
    platform's only on inputs of the shape above and on inputs that the
    platform rejects as well. It serves to run the resolver on concrete
    URLs; the theorems on the resolver hold for every parser. *)
Module PlainURL.

Definition is_host_char (c : ascii) : bool :=
  is_letter c || Ascii.eqb c ".".
Definition is_path_char (c : ascii) : bool :=
  is_letter c || is_digit c || Ascii.eqb c "/" || Ascii.eqb c "-"
  || Ascii.eqb c "_".

(** Labels of letters: every label of the host is non-empty. *)
Definition valid_host (host : string) : bool :=
  forallb (fun label => negb (String.eqb label "")) (split "." host).

Definition parse (input : string) : Completion URL :=
  let (scheme, after_scheme) := span is_letter input in
  let scheme := lowercase scheme in
  if negb (String.eqb scheme "http" || String.eqb scheme "https") then
    Throw TypeError_InvalidURL
  else if negb (startsWith after_scheme "://") then
    Throw TypeError_InvalidURL
  else
    let after_slashes :=
      substring 3 (String.length after_scheme - 3) after_scheme in
    let (host, path) := span is_host_char after_slashes in
    if negb (valid_host host) then Throw TypeError_InvalidURL
    else if negb (forallb_string is_path_char path) then
      Throw TypeError_InvalidURL
    else if negb (String.eqb path "" || startsWith path "/") then
      Throw TypeError_InvalidURL
    else
      let host := lowercase host in
      let pathname := if String.eqb path "" then "/" else path in
      Return {| protocol := scheme ++ ":";
                origin := scheme ++ "://" ++ host;
                href := scheme ++ "://" ++ host ++ pathname |}.

End PlainURL.

(* ================================================================== *)
(** ** Size attribute parser *)

Module Sizes.

(** [\d+], greedy: the longest run of digits at the head. *)
Definition digits (s : string) : string * string := span is_digit s.

(** [/(\d+)x(\d+)/] anchored at the head of [s]: the two captures. The
    first group must be followed by [x], which is no digit, so giving a
    digit back never helps and the greedy run is the only candidate. *)
Definition match_here (s : string) : option (string * string) :=
  let (g1, after_g1) := digits s in
  match after_g1 with
  | String c after_x =>
      if negb (String.eqb g1 "") && Ascii.eqb c "x" then
        let (g2, _) := digits after_x in
        if negb (String.eqb g2 "") then Some (g1, g2) else None
      else None
  | "" => None
  end.

(** [s.match(/(\d+)x(\d+)/)]: the match at the leftmost position that has
    one; [match[1]] and [match[2]]. *)
Fixpoint regexp_match (s : string) : option (string * string) :=
  match match_here s with
  | Some m => Some m
  | None =>
      match s with
      | "" => None
      | String _ rest => regexp_match rest
      end
  end.

Definition digit_value (c : ascii) : Z := Z.of_nat (nat_of_ascii c) - 48.

(** [parseInt(s)] on a string of decimal digits: the integer it denotes.
    The code gets a JavaScript number, which is this integer when it is
    below 2^53 and a rounding of it above; what is stated below of a
    returned number is stated below 2^53. *)
Definition parseInt (s : string) : Z :=
  (fix go (acc : Z) (s : string) : Z :=
     match s with
     | "" => acc
     | String c rest => go (10 * acc + digit_value c) rest
     end) 0 s.

Definition starts_with_digit (s : string) : bool :=
  match s with
  | String c _ => is_digit c
  | "" => false
  end.

(** In the words of the specification: the pattern [<digits>x<digits>]
    occurs in [s] after [before], with the two groups [g1] and [g2]. *)
Definition occurrence (s before g1 g2 after : string) : Prop :=
  s = before ++ g1 ++ "x" ++ g2 ++ after
  /\ g1 <> "" /\ g2 <> ""
  /\ forallb_string is_digit g1 = true
  /\ forallb_string is_digit g2 = true.

(** The first occurrence: none starts further left, and its second group
    takes every digit there is. *)
Definition first_occurrence (s before g1 g2 after : string) : Prop :=
  occurrence s before g1 g2 after
  /\ starts_with_digit after = false
  /\ forall before' h1 h2 after',
       occurrence s before' h1 h2 after' ->
       (String.length before <= String.length before')%nat.

End Sizes.

Definition parseSizesAttribute (sizes : option string) : option Z :=
  match sizes with
  | None | Some "" => None
  | Some sizes =>
      match Sizes.regexp_match sizes with
      | Some (match_1, match_2) =>
          if negb (String.eqb match_1 match_2) then None
          else Some (Sizes.parseInt match_1)
      | None => None
      end
  end.

(* ================================================================== *)
(** ** A decoder for the header of a PNG file

    It reads the width and the height in the IHDR chunk that follows the
    PNG signature, and rejects everything else. It stands for the image
    decoder where a check is run on concrete bytes; the theorems on the
    classifier hold for every decoder. *)
Module Png.

Definition signature : list byte :=
  [x89; x50; x4e; x47; x0d; x0a; x1a; x0a].

Definition IHDR : list byte := [x49; x48; x44; x52].

Fixpoint bytes_eqb (a b : list byte) : bool :=
  match a, b with
  | [], [] => true
  | x :: a', y :: b' => Byte.eqb x y && bytes_eqb a' b'
  | _, _ => false
  end.

(** A big-endian unsigned integer. *)
Definition be (bs : list byte) : Z :=
  fold_left (fun acc b => 256 * acc + Z.of_N (Byte.to_N b)) bs 0.

Definition slice (from len : nat) (b : Buffer) : list byte :=
  firstn len (skipn from b).

Definition metadata (buffer : Buffer) : Completion Metadata.t :=
  if bytes_eqb (slice 0 8 buffer) signature
     && bytes_eqb (slice 12 4 buffer) IHDR
     && (24 <=? List.length buffer)%nat
  then Return {| Metadata.width := Some (be (slice 16 4 buffer));
                 Metadata.height := Some (be (slice 20 4 buffer)) |}
  else Throw DecodeError.

(** The first 24 bytes of a PNG file of the given dimensions (each below
    256 pixels). *)
Definition header (width height : byte) : list byte :=
  (signature ++ [x00; x00; x00; x0d] ++ IHDR
    ++ [x00; x00; x00; width] ++ [x00; x00; x00; height])%list.

End Png.

(** Running a check from the initial world with the recording observer. *)
Definition check (sharp_metadata : Buffer -> Completion Metadata.t)
    (server : Server) (iconUrl : option string) (mimeType : option string)
    (expectedWidthHeight : option Z)
  : World * Completion (option CheckIconOutput) :=
  checkIcon sharp_metadata iconUrl recorder (fetcherOf server)
            mimeType expectedWidthHeight initial.

(** A server with one answer for every request. *)
Definition always (res : FetchResponse) : Server := fun _ _ => Return res.

(** A stream that delivers the given chunks and closes. *)
Definition stream_of (chunks : list Uint8Array) : ReadableStream :=
  {| pending := chunks; errored := false |}.

(** The events that [report_dimensions] sends to the recording observer. *)
Definition dimension_events (meta : Metadata.t)
    (expectedWidthHeight : option Z) : list Event.t :=
  events (fst (report_dimensions recorder meta expectedWidthHeight initial)).

(** Responses used to run checks on concrete inputs: a success whose body
    is the header of a PNG file, delivered in two chunks, and a success
    whose body is a web page. *)
Definition png_response (declared : option string) (width height : byte)
  : FetchResponse :=
  {| status := 200;
     contentType := declared;
     readableStream :=
       Some (stream_of [firstn 8 (Png.header width height);
                        skipn 8 (Png.header width height)]) |}.

Definition page_response : FetchResponse :=
  {| status := 200;
     contentType := Some "text/html";
     readableStream := Some (stream_of [bytes_of_string "<html></html>"]) |}.

(* ================================================================== *)
(** ** The remaining helpers *)

(** *** [Uint8Array.prototype.set] with its bounds check

    [target.set(source, offset)] throws a RangeError when the source does
    not fit in the target at the offset. The copy loop of the collectors
    with that check: [None] is the RangeError. *)
Definition set_checked (target source : Uint8Array) (offset : nat)
  : option Uint8Array :=
  if (offset + List.length source <=? List.length target)%nat
  then Some (set target source offset)
  else None.

Definition copy_chunks_checked (chunks : list Uint8Array)
    (target : Uint8Array) (offset : nat) : option (Uint8Array * nat) :=
  fold_left (fun st chunk =>
               match st with
               | Some (target, offset) =>
                   match set_checked target chunk offset with
                   | Some target' =>
                       Some (target', (offset + List.length chunk)%nat)
                   | None => None
                   end
               | None => None
               end)
            chunks (Some (target, offset)).

(** *** Streams of text *)

Section Text.

(** [new TextEncoder().encode(str)] and
    [new TextDecoder("utf-8").decode(bytes)], the platform's UTF-8 codec. *)
Variable TextEncoder_encode : string -> Uint8Array.
Variable TextDecoder_decode : Uint8Array -> string.

(** One chunk, then the stream closes. *)
Definition stringToReadableStream (str : string) : ReadableStream :=
  let uint8Array := TextEncoder_encode str in
  {| pending := [uint8Array]; errored := false |}.

Definition readableStreamToString (readableStream : ReadableStream)
  : Completion string :=
  match read_loop (pending readableStream) (errored readableStream) [] with
  | Throw e => Throw e
  | Return chunks =>
      let concatenatedChunks := new_Uint8Array (total_length chunks) in
      Return (TextDecoder_decode
                (fst (copy_chunks chunks concatenatedChunks 0%nat)))
  end.

End Text.

(** *** Data URL of a file *)

Section Files.

(** [filePathToReadableStream], as far as its caller sees it: opening the
    file may be rejected; otherwise there is a stream of its chunks. *)
Variable filePathToReadableStream : string -> Completion ReadableStream.

Definition filePathToDataUrl (filePath : string) : Completion string :=
  match filePathToReadableStream filePath with
  | Throw e => Throw e
  | Return readStream =>
      match readableStreamToBuffer readStream with
      | Throw e => Throw e
      | Return rawContent =>
          let contentType := pathToMimeType filePath in
          Return (bufferToDataUrl rawContent contentType)
      end
  end.

End Files.

(** *** The fetcher over the platform's [fetch] *)

(** What the code reads of the platform's response: [res.status],
    [res.headers.get('Content-Type')] and [res.body]. *)
Record Response : Type := {
  Response_status : Z;
  Response_Content_Type : option string;
  Response_body : option ReadableStream
}.

(** The [headers] of the request, in the order of the object literal. *)
Definition fetchFetcher_headers (url : string) (contentType : option string)
  : list (string * string) :=
  [("Content-Type", Truthy.str_or contentType (pathToMimeType url));
   ("user-agent", "RealFaviconGenerator Favicon Checker")].

Definition fetchFetcher {W : Type}
    (fetch : string -> list (string * string) -> M W Response) : Fetcher W :=
  fun url contentType =>
    bind (fetch url (fetchFetcher_headers url contentType))
         (fun res =>
            ret {| status := Response_status res;
                   contentType :=
                     if Truthy.str (Response_Content_Type res)
                     then Response_Content_Type res else None;
                   readableStream := Response_body res |}).

(** *** An observer given by a handler of events

    The observer whose state is an [S] and whose callbacks apply [handle]
    to the event they stand for, and a fetcher that answers without
    touching that state. *)
Definition processorOf {S : Type} (handle : S -> Event.t -> S)
  : CheckIconProcessor S :=
  let call (e : Event.t) : M S unit := fun s => (handle s e, Return tt) in
  {| noHref := call Event.noHref;
     icon404 := call Event.icon404;
     cannotGet := fun status => call (Event.cannotGet status);
     downloadable := call Event.downloadable;
     square := fun n => call (Event.square n);
     notSquare := fun w h => call (Event.notSquare w h);
     rightSize := fun n => call (Event.rightSize n);
     wrongSize := fun n => call (Event.wrongSize n) |}.

Definition answering {S : Type} (server : Server) : Fetcher S :=
  fun url contentType s => (s, server url contentType).

(** *** Report model *)

Module CheckerStatus.
Inductive t : Type := Ok | Error | Warning.

(** [===] on the members of the enumeration. *)
Definition eqb (a b : t) : bool :=
  match a, b with
  | Ok, Ok | Error, Error | Warning, Warning => true
  | _, _ => false
  end.
End CheckerStatus.

Module MessageId.
Inductive t : Type :=
| noHead
| svgFaviconDeclared | noSvgFavicon | multipleSvgFavicons | noSvgFaviconHref
| svgFavicon404 | svgFaviconCannotGet | svgFaviconDownloadable
| svgFaviconSquare | svgFaviconNotSquare
| noIcoFavicon | multipleIcoFavicons | icoFaviconDeclared | noIcoFaviconHref
| icoFavicon404 | icoFaviconCannotGet | icoFaviconDownloadable
| icoFaviconExtraSizes | icoFaviconMissingSizes | icoFaviconExpectedSizes
| noDesktopPngFavicon | no48x48DesktopPngFavicon | desktopPngFaviconDeclared
| noDesktopPngFaviconHref | desktopPngFaviconCannotGet
| desktopPngFaviconDownloadable | desktopPngFavicon404
| desktopPngFaviconWrongSize | desktopPngFaviconRightSize
| noTouchWebAppTitle | multipleTouchWebAppTitles | emptyTouchWebAppTitle
| touchWebAppTitleDeclared | noTouchIcon | duplicatedTouchIconSizes
| touchIconWithSize | touchIconDeclared | noTouchIconHref | touchIcon404
| touchIconCannotGet | touchIconDownloadable | touchIconSquare
| touchIcon180x180 | touchIconNotSquare | touchIconWrongSize
| noManifest | noManifestHref | manifest404 | manifestCannotGet
| manifestInvalidJson | manifestName | noManifestName | manifestShortName
| noManifestShortName | manifestBackgroundColor | noManifestBackgroundColor
| manifestThemeColor | noManifestThemeColor | noManifestIcons
| noManifestIcon | manifestIconDeclared | manifestIconCannotGet
| manifestIconDownloadable | manifestIcon404 | manifestIconNoHref
| manifestIconNotSquare | manifestIconRightSize | manifestIconSquare
| manifestIconWrongSize.
End MessageId.

Module CheckerMessage.
Record t : Type := {
  status : CheckerStatus.t;
  id : MessageId.t;
  text : string
}.
End CheckerMessage.

Module DesktopFaviconReport.
Record t : Type := {
  messages : list CheckerMessage.t;
  icon : option string
}.
End DesktopFaviconReport.

(** [TouchIconIconReport & TouchIconTitleReport] *)
Module TouchIconReport.
Record t : Type := {
  messages : list CheckerMessage.t;
  touchIcon : option string;
  appTitle : option string
}.
End TouchIconReport.

Module WebManifestReport.
Record t : Type := {
  messages : list CheckerMessage.t;
  name : option string;
  shortName : option string;
  backgroundColor : option string;
  themeColor : option string;
  icon : option string
}.
End WebManifestReport.

Record FaviconReport : Type := {
  desktop : DesktopFaviconReport.t;
  touchIcon : TouchIconReport.t;
  webAppManifest : WebManifestReport.t
}.

(** [messages.some(message => message.status === status)] *)
Definition some_status (status : CheckerStatus.t)
    (messages : list CheckerMessage.t) : bool :=
  existsb (fun message =>
             CheckerStatus.eqb (CheckerMessage.status message) status)
          messages.

Definition reportHasErrors (report : FaviconReport) : bool :=
  some_status CheckerStatus.Error
              (DesktopFaviconReport.messages (desktop report))
  || some_status CheckerStatus.Error
                 (TouchIconReport.messages (touchIcon report))
  || some_status CheckerStatus.Error
                 (WebManifestReport.messages (webAppManifest report)).

Definition reportHasWarnings (report : FaviconReport) : bool :=
  some_status CheckerStatus.Warning
              (DesktopFaviconReport.messages (desktop report))
  || some_status CheckerStatus.Warning
                 (TouchIconReport.messages (touchIcon report))
  || some_status CheckerStatus.Warning
                 (WebManifestReport.messages (webAppManifest report)).

(** Every message of a report, section after section. *)
Definition all_messages (report : FaviconReport) : list CheckerMessage.t :=
  (DesktopFaviconReport.messages (desktop report)
   ++ TouchIconReport.messages (touchIcon report)
   ++ WebManifestReport.messages (webAppManifest report))%list.

(** A report with the given messages in its three sections and nothing
    else, and one message of each status, to run the predicates on. *)
Definition report_of (desktop_messages touch_messages manifest_messages
                      : list CheckerMessage.t) : FaviconReport :=
  {| desktop := {| DesktopFaviconReport.messages := desktop_messages;
                   DesktopFaviconReport.icon := None |};
     touchIcon := {| TouchIconReport.messages := touch_messages;
                     TouchIconReport.touchIcon := None;
                     TouchIconReport.appTitle := None |};
     webAppManifest := {| WebManifestReport.messages := manifest_messages;
                          WebManifestReport.name := None;
                          WebManifestReport.shortName := None;
                          WebManifestReport.backgroundColor := None;
                          WebManifestReport.themeColor := None;
                          WebManifestReport.icon := None |} |}.

Definition ok_message : CheckerMessage.t :=
  {| CheckerMessage.status := CheckerStatus.Ok;
     CheckerMessage.id := MessageId.svgFaviconSquare;
     CheckerMessage.text := "The SVG favicon is square" |}.

Definition warning_message : CheckerMessage.t :=
  {| CheckerMessage.status := CheckerStatus.Warning;
     CheckerMessage.id := MessageId.noTouchWebAppTitle;
     CheckerMessage.text := "No touch web app title declared" |}.

Definition error_message : CheckerMessage.t :=
  {| CheckerMessage.status := CheckerStatus.Error;
     CheckerMessage.id := MessageId.manifest404;
     CheckerMessage.text := "The web app manifest is not found" |}.

(** The outcome of a check, written out path by path: the final world and
    the completion as functions of what the server, the stream and the
    decoder answer. It is proved equal to [check] below. *)
Definition check_outcome (sharp_metadata : Buffer -> Completion Metadata.t)
    (server : Server) (iconUrl : option string) (mimeType : option string)
    (expectedWidthHeight : option Z)
  : World * Completion (option CheckIconOutput) :=
  if negb (Truthy.str iconUrl) then
    ({| events := [Event.noHref]; requests := [] |}, Return None)
  else
    let iconUrl := Truthy.str_or iconUrl "" in
    let world evs := {| events := evs; requests := [(iconUrl, mimeType)] |} in
    let no_content :=
      Return (Some {| content := None; url := Some iconUrl;
                      width := None; height := None |}) in
    match server iconUrl mimeType with
    | Throw e => (world [], Throw e)
    | Return res =>
        if status res =? 404 then (world [Event.icon404], no_content)
        else if 300 <=? status res then
          (world [Event.cannotGet (status res)], no_content)
        else
          match readableStream res with
          | None => (world [], no_content)
          | Some stream =>
              if errored stream then
                (world [Event.downloadable], Throw StreamError)
              else
                let rawContent := List.concat (pending stream) in
                match sharp_metadata rawContent with
                | Throw e => (world [Event.downloadable], Throw e)
                | Return meta =>
                    (world (Event.downloadable
                              :: dimension_events meta expectedWidthHeight),
                     Return (Some {|
                       content :=
                         Some (bufferToDataUrl rawContent
                                 (Truthy.str_or (contentType res)
                                                (pathToMimeType iconUrl)));
                       url := Some iconUrl;
                       width := Truthy.num_or_null (Metadata.width meta);
                       height :=
                         Truthy.num_or_null (Metadata.height meta) |}))
                end
          end
    end.

(** A URL object of the [http] or [https] scheme, as the platform gives
    it: [origin] and [href] start with the scheme and [://]. *)
Definition is_http_url (url : URL) : Prop :=
  (protocol url = "http:" \/ protocol url = "https:")
  /\ startsWith (origin url) (protocol url ++ "//") = true
  /\ startsWith (href url) (protocol url ++ "//") = true.

(** [String(n)] for a natural number: its decimal digits, ["0"] for
    zero and no leading zero otherwise. *)
Definition decimal (n : N) : string :=
  DecimalString.NilEmpty.string_of_uint (N.to_uint n).

(** Reading base64 back: the value of a character of the alphabet, a
    group of four characters with its padding, and a whole text. It is
    the inverse against which the encoding is checked. *)
Module Base64Inverse.

Fixpoint index_in (c : ascii) (s : string) (i : N) : option N :=
  match s with
  | "" => None
  | String a rest =>
      if Ascii.eqb a c then Some i else index_in c rest (N.succ i)
  end.

Definition value (c : ascii) : option N := index_in c Base64.alphabet 0.

Definition group (c1 c2 c3 c4 : ascii) : option (list byte) :=
  match value c1, value c2 with
  | Some i1, Some i2 =>
      let b1 := Byte.of_N (i1 * 4 + i2 / 16)%N in
      if Ascii.eqb c3 "=" then
        if Ascii.eqb c4 "=" then option_map (fun b => [b]) b1 else None
      else
        match value c3 with
        | Some i3 =>
            let b2 := Byte.of_N ((i2 mod 16) * 16 + i3 / 4)%N in
            if Ascii.eqb c4 "=" then
              match b1, b2 with
              | Some b1, Some b2 => Some [b1; b2]
              | _, _ => None
              end
            else
              match value c4 with
              | Some i4 =>
                  match b1, b2, Byte.of_N ((i3 mod 4) * 64 + i4)%N with
                  | Some b1, Some b2, Some b3 => Some [b1; b2; b3]
                  | _, _, _ => None
                  end
              | None => None
              end
        | None => None
        end
  | _, _ => None
  end.

Fixpoint decode (s : string) : option (list byte) :=
  match s with
  | "" => Some []
  | String c1 (String c2 (String c3 (String c4 rest))) =>
      match group c1 c2 c3 c4, decode rest with
      | Some g, Some r => Some (g ++ r)%list
      | _, _ => None
      end
  | _ => None
  end.

End Base64Inverse.

(* ================================================================== *)
(** * Properties *)

(** ** The byte stream collector yields the chunks in arrival order *)

Lemma read_loop_spec (pending : list Uint8Array) (errored : bool) :
  forall chunks,
    read_loop pending errored chunks =
    if errored then Throw StreamError else Return (chunks ++ pending)%list.
Proof.
  induction pending as [|c rest IH]; intros chunks; simpl.
  - rewrite app_nil_r. reflexivity.
  - rewrite IH, <- app_assoc. reflexivity.
Qed.

(** The loop of [read_loop] is the iteration of [read]. *)
Lemma read_loop_step (r : ReadableStream) (chunks : list Uint8Array) :
  read_loop (pending r) (errored r) chunks =
  match read r with
  | (Throw e, _) => Throw e
  | (Return {| value := Some c; done := _ |}, r') =>
      read_loop (pending r') (errored r') (chunks ++ [c])%list
  | (Return {| value := None; done := _ |}, _) => Return chunks
  end.
Proof.
  unfold read. destruct r as [[|c rest] err]; simpl.
  - destruct err; reflexivity.
  - reflexivity.
Qed.

Lemma total_length_concat (chunks : list Uint8Array) :
  total_length chunks = List.length (List.concat chunks).
Proof.
  unfold total_length.
  enough (G : forall n, fold_left (fun acc chunk => (acc + List.length chunk)%nat)
                                  chunks n = (n + List.length (List.concat chunks))%nat)
    by apply (G 0%nat).
  induction chunks as [|c cs IH]; intros n; simpl.
  - lia.
  - rewrite IH, length_app. lia.
Qed.

Lemma set_append (filled source tail : Uint8Array) :
  (List.length source <= List.length tail)%nat ->
  set (filled ++ tail)%list source (List.length filled) =
  ((filled ++ source) ++ skipn (List.length source) tail)%list.
Proof.
  intros Hfit. unfold set.
  rewrite firstn_app, firstn_all, Nat.sub_diag, firstn_O, app_nil_r.
  rewrite skipn_app, skipn_all2 by lia.
  replace (List.length filled + List.length source - List.length filled)%nat
    with (List.length source) by lia.
  simpl. rewrite <- app_assoc. reflexivity.
Qed.

Lemma copy_chunks_spec (chunks : list Uint8Array) :
  forall filled tail,
    List.length tail = List.length (List.concat chunks) ->
    copy_chunks chunks (filled ++ tail)%list (List.length filled) =
    ((filled ++ List.concat chunks)%list,
     (List.length filled + List.length (List.concat chunks))%nat).
Proof.
  unfold copy_chunks.
  induction chunks as [|c cs IH]; intros filled tail Hlen; simpl in *.
  - destruct tail; [|discriminate]. rewrite Nat.add_0_r. reflexivity.
  - rewrite length_app in Hlen.
    rewrite set_append by lia.
    replace (List.length filled + List.length c)%nat
      with (List.length (filled ++ c)%list) by (rewrite length_app; reflexivity).
    rewrite IH by (rewrite length_skipn; lia).
    rewrite !length_app, <- app_assoc. f_equal. lia.
Qed.

Lemma readableStreamToBuffer_spec (s : ReadableStream) :
  readableStreamToBuffer s =
  if errored s then Throw StreamError else Return (List.concat (pending s)).
Proof.
  unfold readableStreamToBuffer. rewrite read_loop_spec.
  destruct (errored s); [reflexivity|]. simpl.
  pose proof (copy_chunks_spec (pending s) []
                (new_Uint8Array (total_length (pending s)))) as Hcopy.
  simpl in Hcopy. rewrite Hcopy; [reflexivity|].
  unfold new_Uint8Array. rewrite repeat_length. apply total_length_concat.
Qed.

(** ** The MIME resolver reads what follows the last dot *)

Lemma split_nonempty (c : ascii) (s : string) : split c s <> [].
Proof.
  induction s as [|a s IH]; simpl; [discriminate|].
  destruct (Ascii.eqb a c); [discriminate|].
  destruct (split c s); discriminate.
Qed.

Lemma split_append (c : ascii) (s t : string) :
  split c (s ++ String c t) = (split c s ++ split c t)%list.
Proof.
  induction s as [|a s IH]; simpl.
  - rewrite Ascii.eqb_refl. reflexivity.
  - destruct (Ascii.eqb a c); [now rewrite IH|].
    rewrite IH. pose proof (split_nonempty c s) as Hs.
    destruct (split c s); [contradiction | reflexivity].
Qed.

Lemma split_no_separator (c : ascii) (s : string) :
  forallb_string (fun a => negb (Ascii.eqb a c)) s = true ->
  split c s = [s].
Proof.
  induction s as [|a s IH]; simpl; [reflexivity|].
  intros H. apply andb_prop in H as [Ha Hs].
  apply negb_true_iff in Ha. rewrite Ha, (IH Hs). reflexivity.
Qed.

Lemma last_cons (l : list string) :
  forall a d, last (a :: l) d = last l a.
Proof.
  induction l as [|b l IH]; intros a d; [reflexivity|].
  change (last (a :: b :: l) d) with (last (b :: l) d).
  rewrite !IH. reflexivity.
Qed.

Lemma pop_append (l1 l2 : list string) :
  l2 <> [] -> pop (l1 ++ l2) = pop l2.
Proof.
  intros Hl2. destruct l2 as [|y l2]; [contradiction|].
  induction l1 as [|x l1 IH]; [reflexivity|].
  rewrite <- IH. cbn [app pop].
  destruct (l1 ++ y :: l2)%list as [|z l] eqn:E.
  - destruct l1; discriminate.
  - cbn [pop]. rewrite last_cons. reflexivity.
Qed.

(** The extension that [pathToMimeType] switches on is what follows the
    last dot of the path. *)
Lemma extension_after_last_dot (stem ext : string) :
  forallb_string (fun a => negb (Ascii.eqb a ".")) ext = true ->
  pop (split "." (stem ++ String "." ext)) = Some ext.
Proof.
  intros Hext. rewrite split_append, pop_append by apply split_nonempty.
  rewrite (split_no_separator _ _ Hext). reflexivity.
Qed.

Lemma pathToMimeType_known (stem : string) :
  pathToMimeType (stem ++ ".png") = "image/png"
  /\ pathToMimeType (stem ++ ".svg") = "image/svg+xml"
  /\ pathToMimeType (stem ++ ".ico") = "image/x-icon"
  /\ pathToMimeType (stem ++ ".jpg") = "image/jpeg"
  /\ pathToMimeType (stem ++ ".jpeg") = "image/jpeg".
Proof.
  unfold pathToMimeType.
  repeat split; rewrite extension_after_last_dot; reflexivity.
Qed.

Example pathToMimeType_query :
  pathToMimeType "https://example.com/favicon.png?v=2"
  = "application/octet-stream".
Proof. reflexivity. Qed.

Example pathToMimeType_upper_case :
  pathToMimeType "https://example.com/favicon.PNG"
  = "application/octet-stream".
Proof. reflexivity. Qed.

(** ** Base64 on the vectors of RFC 4648 *)

Example base64_vectors :
  Base64.encode (bytes_of_string "") = ""
  /\ Base64.encode (bytes_of_string "f") = "Zg=="
  /\ Base64.encode (bytes_of_string "fo") = "Zm8="
  /\ Base64.encode (bytes_of_string "foo") = "Zm9v"
  /\ Base64.encode (bytes_of_string "foob") = "Zm9vYg=="
  /\ Base64.encode (bytes_of_string "fooba") = "Zm9vYmE="
  /\ Base64.encode (bytes_of_string "foobar") = "Zm9vYmFy".
Proof. repeat split. Qed.

Lemma base64_length (bs : list byte) :
  String.length (Base64.encode bs)
  = (4 * ((List.length bs + 2) / 3))%nat.
Proof.
  enough (G : forall n bs, (List.length bs <= n)%nat ->
             String.length (Base64.encode bs)
             = (4 * ((List.length bs + 2) / 3))%nat)
    by (apply (G (List.length bs)); lia).
  clear bs. induction n as [n IH] using lt_wf_ind. intros bs Hlen.
  destruct bs as [|b1 [|b2 [|b3 rest]]]; try reflexivity.
  cbn [Base64.encode String.length List.length].
  rewrite (IH (List.length rest)) by (simpl in Hlen; lia).
  replace (S (S (S (List.length rest))) + 2)%nat
    with (List.length rest + 2 + 1 * 3)%nat by lia.
  rewrite Nat.div_add by lia. lia.
Qed.

(** ** The classifier *)

(** Entering a check whose URL is not empty and whose request is answered:
    the request is logged and the answer is in hand. *)
Ltac enter_check Hurl Hserver :=
  match type of Hurl with
  | ?iconUrl <> "" =>
      destruct iconUrl as [|? ?]; [congruence|];
      unfold check, checkIcon, bind, fetcherOf;
      rewrite Hserver; cbn beta iota
  end.

(** Deciding the two status tests of the classifier. *)
Ltac decide_status :=
  repeat match goal with
         | |- context [?a =? ?b] =>
             destruct (Z.eqb_spec a b); try lia; cbn beta iota
         | |- context [?a >=? ?b] =>
             rewrite (Z.geb_leb a b);
             destruct (Z.leb_spec b a); try lia; cbn beta iota
         end.

Section ClassifierFacts.

Variable sharp_metadata : Buffer -> Completion Metadata.t.
Variable server : Server.
Variables (mimeType : option string) (expectedWidthHeight : option Z).

(** Without a URL the classifier is its [noHref] callback and nothing
    else, whatever the observer and the fetcher are. *)
Lemma checkIcon_falsy_url {W : Type} (processor : CheckIconProcessor W)
    (fetcher : Fetcher W) (iconUrl : option string) :
  Truthy.str iconUrl = false ->
  checkIcon sharp_metadata iconUrl processor fetcher mimeType
            expectedWidthHeight
  = bind (noHref processor) (fun _ => ret None).
Proof.
  destruct iconUrl as [[|c rest]|]; simpl; intros H;
    [reflexivity | discriminate | reflexivity].
Qed.

(** C4. When [iconUrl] is undefined or the empty string, the check tells
    the observer [noHref] and nothing else, returns null, and sends no
    request. *)
Theorem checkIcon_noHref (iconUrl : option string) :
  iconUrl = None \/ iconUrl = Some "" ->
  check sharp_metadata server iconUrl mimeType expectedWidthHeight =
  ({| events := [Event.noHref]; requests := [] |}, Return None).
Proof.
  intros [-> | ->]; reflexivity.
Qed.

(** C3. A response with status 404 makes the check emit exactly
    [icon404], with or without a body; a response with a status in
    [300, 404) or above 404 makes it emit exactly [cannotGet] with that
    status. *)
Theorem checkIcon_error_status (iconUrl : string) (res : FetchResponse) :
  iconUrl <> "" ->
  server iconUrl mimeType = Return res ->
  (status res = 404 ->
   events (fst (check sharp_metadata server (Some iconUrl) mimeType
           expectedWidthHeight)) = [Event.icon404])
  /\ (300 <= status res < 404 \/ 404 < status res ->
      events (fst (check sharp_metadata server (Some iconUrl) mimeType
           expectedWidthHeight))
      = [Event.cannotGet (status res)]).
Proof.
  intros Hurl Hserver. split; intros Hstatus;
    enter_check Hurl Hserver; decide_status; reflexivity.
Qed.

(** C6. A response with a status in [200, 300) and no byte stream makes
    the check return the output without content and emit no event. *)
Theorem checkIcon_silent_no_body (iconUrl : string) (res : FetchResponse) :
  iconUrl <> "" ->
  server iconUrl mimeType = Return res ->
  200 <= status res < 300 ->
  readableStream res = None ->
  check sharp_metadata server (Some iconUrl) mimeType
           expectedWidthHeight =
  ({| events := []; requests := [(iconUrl, mimeType)] |},
   Return (Some {| content := None; url := Some iconUrl;
                   width := None; height := None |})).
Proof.
  intros Hurl Hserver Hstatus Hbody.
  enter_check Hurl Hserver; decide_status. rewrite Hbody. reflexivity.
Qed.

Lemma report_dimensions_recorder (meta : Metadata.t) (w : World) :
  report_dimensions recorder meta expectedWidthHeight w =
  ({| events := (events w ++ dimension_events meta expectedWidthHeight)%list;
      requests := requests w |}, Return tt).
Proof.
  unfold dimension_events, report_dimensions.
  destruct w as [evs reqs].
  destruct meta as [[meta_width|] [meta_height|]]; cbn [Metadata.width Metadata.height];
    try (unfold ret; cbn; rewrite app_nil_r; reflexivity).
  destruct (Truthy.num (Some meta_width) && Truthy.num (Some meta_height));
    [|unfold ret; cbn; rewrite app_nil_r; reflexivity].
  destruct (negb (meta_width =? meta_height)); [reflexivity|].
  destruct expectedWidthHeight as [expected|]; [|reflexivity].
  destruct (Truthy.num (Some expected)); [|reflexivity].
  destruct (meta_width =? expected); cbn; unfold emit; cbn;
    rewrite <- app_assoc; reflexivity.
Qed.

(** The whole of a check whose response is a success with a body that
    drains and decodes. *)
Lemma check_downloaded (iconUrl : string) (res : FetchResponse)
    (stream : ReadableStream) (meta : Metadata.t) :
  iconUrl <> "" ->
  server iconUrl mimeType = Return res ->
  status res <> 404 ->
  status res < 300 ->
  readableStream res = Some stream ->
  errored stream = false ->
  sharp_metadata (List.concat (pending stream)) = Return meta ->
  check sharp_metadata server (Some iconUrl) mimeType
           expectedWidthHeight =
  ({| events := Event.downloadable
                  :: dimension_events meta expectedWidthHeight;
      requests := [(iconUrl, mimeType)] |},
   Return (Some {|
     content := Some (bufferToDataUrl (List.concat (pending stream))
                        (Truthy.str_or (contentType res)
                                       (pathToMimeType iconUrl)));
     url := Some iconUrl;
     width := Truthy.num_or_null (Metadata.width meta);
     height := Truthy.num_or_null (Metadata.height meta) |})).
Proof.
  intros Hurl Hserver H404 H300 Hbody Hopen Hmeta.
  enter_check Hurl Hserver; decide_status. rewrite Hbody.
  unfold lift. rewrite readableStreamToBuffer_spec, Hopen.
  cbn beta iota. rewrite Hmeta. cbn beta iota.
  cbn [downloadable recorder]. unfold emit at 1.
  rewrite report_dimensions_recorder. reflexivity.
Qed.

Lemma dimension_events_square (W : Z) :
  W <> 0 ->
  dimension_events {| Metadata.width := Some W; Metadata.height := Some W |}
                   expectedWidthHeight
  = (Event.square W ::
     match expectedWidthHeight with
     | None => []
     | Some expected =>
         if expected =? 0 then []
         else if expected =? W then [Event.rightSize W]
         else [Event.wrongSize W]
     end).
Proof.
  intros HW. unfold dimension_events, report_dimensions; cbn.
  destruct (Z.eqb_spec W 0); [contradiction|]. cbn.
  rewrite Z.eqb_refl. cbn.
  destruct expectedWidthHeight as [expected|]; [|reflexivity].
  destruct (Z.eqb_spec expected 0); [reflexivity|]. cbn.
  rewrite (Z.eqb_sym W expected).
  destruct (expected =? W); reflexivity.
Qed.

Lemma dimension_events_notSquare (meta_width meta_height : Z) :
  meta_width <> meta_height ->
  dimension_events {| Metadata.width := Some meta_width;
                      Metadata.height := Some meta_height |}
                   expectedWidthHeight
  = if (meta_width =? 0) || (meta_height =? 0) then []
    else [Event.notSquare meta_width meta_height].
Proof.
  intros Hne. unfold dimension_events, report_dimensions; cbn.
  destruct (Z.eqb_spec meta_width 0); [reflexivity|].
  destruct (Z.eqb_spec meta_height 0); [reflexivity|]. cbn.
  destruct (Z.eqb_spec meta_width meta_height); [contradiction|].
  reflexivity.
Qed.

(** C1, amended. A successful response (status not 404 and below 300)
    with a byte stream whose metadata has width and height both equal to
    a non-zero [W] makes the check emit [downloadable], then [square W],
    then: [rightSize W] if an expected size was given, is not zero and
    equals [W]; [wrongSize W] if it was given, is not zero and differs
    from [W]; nothing if no expected size was given or it is zero. The
    comparison is equality of integers. *)
Theorem checkIcon_square (iconUrl : string) (res : FetchResponse)
    (stream : ReadableStream) (W : Z) :
  iconUrl <> "" ->
  server iconUrl mimeType = Return res ->
  status res <> 404 ->
  status res < 300 ->
  readableStream res = Some stream ->
  errored stream = false ->
  sharp_metadata (List.concat (pending stream))
  = Return {| Metadata.width := Some W; Metadata.height := Some W |} ->
  W <> 0 ->
  events (fst (check sharp_metadata server (Some iconUrl) mimeType
           expectedWidthHeight)) =
  (Event.downloadable :: Event.square W ::
     match expectedWidthHeight with
     | None => []
     | Some expected =>
         if expected =? 0 then []
         else if expected =? W then [Event.rightSize W]
         else [Event.wrongSize W]
     end).
Proof.
  intros Hurl Hserver H404 H300 Hbody Hopen Hmeta HW.
  rewrite (check_downloaded _ _ _ _ Hurl Hserver H404 H300 Hbody Hopen Hmeta).
  cbn [fst events]. rewrite dimension_events_square by assumption.
  reflexivity.
Qed.

(** C2. A successful response with a byte stream whose metadata has a
    width different from its height, both being pixel counts of a decoded
    image and so not zero, makes the check emit [downloadable] and then
    [notSquare] with the width and the height, and nothing else. Whatever
    the metadata, when its width differs from its height the check never
    emits [square], [rightSize] or [wrongSize]; and the guard of the code
    is kept: a width or a height that is zero or undefined leaves
    [downloadable] alone. *)
Theorem checkIcon_notSquare (iconUrl : string) (res : FetchResponse)
    (stream : ReadableStream) (meta : Metadata.t) :
  iconUrl <> "" ->
  server iconUrl mimeType = Return res ->
  status res <> 404 ->
  status res < 300 ->
  readableStream res = Some stream ->
  errored stream = false ->
  sharp_metadata (List.concat (pending stream)) = Return meta ->
  Metadata.width meta <> Metadata.height meta ->
  (forall meta_width meta_height : Z,
      Metadata.width meta = Some meta_width ->
      Metadata.height meta = Some meta_height ->
      meta_width <> 0 -> meta_height <> 0 ->
      events (fst (check sharp_metadata server (Some iconUrl) mimeType
                         expectedWidthHeight))
      = [Event.downloadable; Event.notSquare meta_width meta_height])
  /\ (Truthy.num (Metadata.width meta) = false
      \/ Truthy.num (Metadata.height meta) = false ->
      events (fst (check sharp_metadata server (Some iconUrl) mimeType
                         expectedWidthHeight))
      = [Event.downloadable])
  /\ (forall n : Z,
        ~ In (Event.square n)
             (events (fst (check sharp_metadata server (Some iconUrl)
                                 mimeType expectedWidthHeight)))
        /\ ~ In (Event.rightSize n)
                (events (fst (check sharp_metadata server (Some iconUrl)
                                    mimeType expectedWidthHeight)))
        /\ ~ In (Event.wrongSize n)
                (events (fst (check sharp_metadata server (Some iconUrl)
                                    mimeType expectedWidthHeight)))).
Proof.
  intros Hurl Hserver H404 H300 Hbody Hopen Hmeta Hne.
  rewrite (check_downloaded _ _ _ _ Hurl Hserver H404 H300 Hbody Hopen Hmeta).
  cbn [fst events].
  assert (Hshape :
            dimension_events meta expectedWidthHeight = []
            /\ (Truthy.num (Metadata.width meta) = false
                \/ Truthy.num (Metadata.height meta) = false)
            \/ exists w h,
                Metadata.width meta = Some w /\ Metadata.height meta = Some h
                /\ w <> 0 /\ h <> 0
                /\ dimension_events meta expectedWidthHeight
                   = [Event.notSquare w h]).
  { destruct meta as [[w|] [h|]]; cbn [Metadata.width Metadata.height] in *;
      try (left; split; [reflexivity | cbn; auto]).
    assert (Hwh : w <> h) by congruence.
    rewrite (dimension_events_notSquare _ _ Hwh). cbn [Truthy.num].
    destruct (Z.eqb_spec w 0) as [Hw|Hw]; [left; auto|].
    destruct (Z.eqb_spec h 0) as [Hh|Hh]; [left; auto|].
    right. exists w, h. auto 10. }
  destruct Hshape as [[-> Hfalsy] | (w & h & Ew & Eh & Hw & Hh & ->)].
  - split; [|split].
    + intros meta_width meta_height Ewidth Eheight Hw Hh. exfalso.
      rewrite Ewidth, Eheight in Hfalsy. cbn [Truthy.num] in Hfalsy.
      destruct Hfalsy as [H|H]; apply negb_false_iff, Z.eqb_eq in H;
        contradiction.
    + reflexivity.
    + intros n. repeat split; intros [H|[]]; discriminate H.
  - split; [|split].
    + intros meta_width meta_height Ewidth Eheight _ _.
      rewrite Ew in Ewidth. rewrite Eh in Eheight.
      injection Ewidth as <-. injection Eheight as <-. reflexivity.
    + rewrite Ew, Eh. cbn [Truthy.num]. intros [H|H];
        apply negb_false_iff, Z.eqb_eq in H; contradiction.
    + intros n. repeat split; intros [H|[H|[]]]; discriminate H.
Qed.

(** C5, amended. For a successful response with a byte stream that
    drains and decodes, the [content] of the returned output is [data:],
    then the content type, then [;base64,], then the base64 encoding of
    the chunks of the body in arrival order; the content type is the one
    the server declared when it declared one that is not the empty
    string, and otherwise the one [pathToMimeType] infers from
    [iconUrl]. *)
Theorem checkIcon_content (iconUrl : string) (res : FetchResponse)
    (stream : ReadableStream) (meta : Metadata.t) :
  iconUrl <> "" ->
  server iconUrl mimeType = Return res ->
  status res <> 404 ->
  status res < 300 ->
  readableStream res = Some stream ->
  errored stream = false ->
  sharp_metadata (List.concat (pending stream)) = Return meta ->
  exists out : CheckIconOutput,
    snd (check sharp_metadata server (Some iconUrl) mimeType
           expectedWidthHeight) = Return (Some out)
    /\ content out =
       Some ("data:"
             ++ match contentType res with
                | Some declared =>
                    if String.eqb declared "" then pathToMimeType iconUrl
                    else declared
                | None => pathToMimeType iconUrl
                end
             ++ ";base64,"
             ++ Base64.encode (List.concat (pending stream))).
Proof.
  intros Hurl Hserver H404 H300 Hbody Hopen Hmeta.
  rewrite (check_downloaded _ _ _ _ Hurl Hserver H404 H300 Hbody Hopen Hmeta).
  eexists. split; [reflexivity|]. cbn [content snd].
  unfold bufferToDataUrl, toString_base64. do 3 f_equal.
  destruct (contentType res) as [[|c declared]|]; reflexivity.
Qed.

(** C10, amended. (1) Whenever a check returns, it returns null exactly
    when [iconUrl] is undefined or empty; (2) for a non-empty [iconUrl],
    a response with status 404 or at least 300 makes the check return
    the output without content; (3) for a non-empty [iconUrl] whose
    request is answered, the check returns an output for that URL
    provided that the response is an error status, or has no byte
    stream, or has one that drains and decodes. *)
Theorem checkIcon_output :
  (forall (iconUrl : option string) (r : option CheckIconOutput),
      snd (check sharp_metadata server iconUrl mimeType expectedWidthHeight) = Return r ->
      (r = None <-> (iconUrl = None \/ iconUrl = Some "")))
  /\ (forall (iconUrl : string) (res : FetchResponse),
         iconUrl <> "" ->
         server iconUrl mimeType = Return res ->
         status res = 404 \/ 300 <= status res ->
         snd (check sharp_metadata server (Some iconUrl) mimeType
           expectedWidthHeight) =
         Return (Some {| content := None; url := Some iconUrl;
                         width := None; height := None |}))
  /\ (forall (iconUrl : string) (res : FetchResponse),
         iconUrl <> "" ->
         server iconUrl mimeType = Return res ->
         (status res = 404 \/ 300 <= status res
          \/ readableStream res = None
          \/ exists stream meta,
              readableStream res = Some stream
              /\ errored stream = false
              /\ sharp_metadata (List.concat (pending stream))
                 = Return meta) ->
         exists out : CheckIconOutput,
           snd (check sharp_metadata server (Some iconUrl) mimeType
           expectedWidthHeight) = Return (Some out)
           /\ url out = Some iconUrl).
Proof.
  assert (Herr : forall (iconUrl : string) (res : FetchResponse),
             iconUrl <> "" ->
             server iconUrl mimeType = Return res ->
             status res = 404 \/ 300 <= status res ->
             snd (check sharp_metadata server (Some iconUrl) mimeType
           expectedWidthHeight) =
             Return (Some {| content := None; url := Some iconUrl;
                             width := None; height := None |})).
  { intros iconUrl res Hurl Hserver Hstatus.
    enter_check Hurl Hserver.
    destruct (Z.eqb_spec (status res) 404); [reflexivity|].
    rewrite Z.geb_leb. destruct (Z.leb_spec 300 (status res)); [reflexivity|].
    lia. }
  split; [|split].
  - intros [[|c rest]|] r Hret.
    + cbn in Hret. injection Hret as <-. split; auto.
    + split.
      * intros ->. exfalso. revert Hret.
        unfold check, checkIcon, bind, fetcherOf. cbn beta iota.
        destruct (server (String c rest) mimeType) as [res|e];
          [|discriminate].
        destruct (status res =? 404); [discriminate|].
        destruct (status res >=? 300); [discriminate|].
        destruct (readableStream res) as [stream|]; [|discriminate].
        cbn [downloadable recorder]. unfold emit at 1, lift.
        destruct (readableStreamToBuffer stream) as [raw|e]; [|discriminate].
        destruct (sharp_metadata raw) as [meta|e]; [|discriminate].
        rewrite report_dimensions_recorder. discriminate.
      * intros [H|H]; discriminate H.
    + cbn in Hret. injection Hret as <-. split; auto.
  - exact Herr.
  - intros iconUrl res Hurl Hserver Hcase.
    destruct (Z.eq_dec (status res) 404) as [H404|H404];
      [rewrite (Herr _ _ Hurl Hserver) by auto; eexists; split; reflexivity|].
    destruct (Z_le_gt_dec 300 (status res)) as [H300|H300];
      [rewrite (Herr _ _ Hurl Hserver) by auto; eexists; split; reflexivity|].
    destruct Hcase as [H|[H|[Hnone|(stream & meta & Hbody & Hopen & Hmeta)]]];
      try lia.
    + enter_check Hurl Hserver; decide_status. rewrite Hnone.
      eexists; split; reflexivity.
    + rewrite (check_downloaded _ _ _ _ Hurl Hserver H404 ltac:(lia)
                 Hbody Hopen Hmeta).
      eexists; split; reflexivity.
Qed.

End ClassifierFacts.

(** *** The classifier on concrete responses *)

Lemma checkIcon_noHref_witness :
  check Png.metadata (always page_response) (Some "") None (Some 48)
  = ({| events := [Event.noHref]; requests := [] |}, Return None).
Proof.
  exact (checkIcon_noHref Png.metadata (always page_response) None (Some 48)
           (Some "") (or_intror eq_refl)).
Defined.

Lemma checkIcon_error_status_witness :
  events (fst (check Png.metadata
                 (always {| status := 404; contentType := Some "text/html";
                            readableStream :=
                              readableStream page_response |})
                 (Some "https://example.com/favicon.ico") None None))
  = [Event.icon404]
  /\ events (fst (check Png.metadata
                    (always {| status := 503; contentType := None;
                               readableStream := None |})
                    (Some "https://example.com/favicon.ico") None None))
     = [Event.cannotGet 503].
Proof.
  split.
  - apply (proj1 (checkIcon_error_status Png.metadata _ None None
                    "https://example.com/favicon.ico"
                    {| status := 404; contentType := Some "text/html";
                       readableStream := readableStream page_response |}
                    ltac:(discriminate) eq_refl)).
    reflexivity.
  - apply (proj2 (checkIcon_error_status Png.metadata _ None None
                    "https://example.com/favicon.ico"
                    {| status := 503; contentType := None;
                       readableStream := None |}
                    ltac:(discriminate) eq_refl)).
    right. simpl. lia.
Defined.

Lemma checkIcon_silent_no_body_witness :
  check Png.metadata
        (always {| status := 204; contentType := None;
                   readableStream := None |})
        (Some "https://example.com/favicon.ico") (Some "image/x-icon") None
  = ({| events := [];
        requests := [("https://example.com/favicon.ico",
                      Some "image/x-icon")] |},
     Return (Some {| content := None;
                     url := Some "https://example.com/favicon.ico";
                     width := None; height := None |})).
Proof.
  apply (checkIcon_silent_no_body Png.metadata _ (Some "image/x-icon") None
           "https://example.com/favicon.ico"
           {| status := 204; contentType := None; readableStream := None |}).
  - discriminate.
  - reflexivity.
  - simpl. lia.
  - reflexivity.
Defined.

Lemma checkIcon_square_witness :
  events (fst (check Png.metadata
                 (always (png_response (Some "image/png") x30 x30))
                 (Some "https://example.com/favicon.png") None (Some 48)))
  = [Event.downloadable; Event.square 48; Event.rightSize 48].
Proof.
  apply (checkIcon_square Png.metadata _ None (Some 48)
           "https://example.com/favicon.png"
           (png_response (Some "image/png") x30 x30)
           (stream_of [firstn 8 (Png.header x30 x30);
                       skipn 8 (Png.header x30 x30)]) 48).
  - discriminate.
  - reflexivity.
  - discriminate.
  - reflexivity.
  - reflexivity.
  - reflexivity.
  - reflexivity.
  - discriminate.
Defined.

(** C1 as stated fails: an expected size of zero is given and differs from
    the 16 pixels of the icon, and no [wrongSize] is emitted. *)
Lemma checkIcon_expected_zero :
  Png.metadata (Png.header x10 x10)
  = Return {| Metadata.width := Some 16; Metadata.height := Some 16 |}
  /\ events (fst (check Png.metadata
                    (always (png_response (Some "image/png") x10 x10))
                    (Some "https://example.com/favicon.png") None (Some 0)))
     = [Event.downloadable; Event.square 16]
  /\ ~ In (Event.wrongSize 16)
         (events (fst (check Png.metadata
                         (always (png_response (Some "image/png") x10 x10))
                         (Some "https://example.com/favicon.png") None
                         (Some 0)))).
Proof.
  repeat split. intros [H|[H|[]]]; discriminate H.
Qed.

Lemma checkIcon_notSquare_witness :
  events (fst (check Png.metadata (always (png_response None x20 x10))
                 (Some "https://example.com/favicon.png") None (Some 32)))
  = [Event.downloadable; Event.notSquare 32 16].
Proof.
  apply (proj1 (checkIcon_notSquare Png.metadata
                  (always (png_response None x20 x10)) None (Some 32)
                  "https://example.com/favicon.png"
                  (png_response None x20 x10)
                  (stream_of [firstn 8 (Png.header x20 x10);
                              skipn 8 (Png.header x20 x10)])
                  {| Metadata.width := Some 32; Metadata.height := Some 16 |}
                  ltac:(discriminate) eq_refl ltac:(discriminate)
                  eq_refl eq_refl eq_refl eq_refl ltac:(discriminate))
               32 16 eq_refl eq_refl);
    discriminate.
Defined.

Lemma checkIcon_content_witness :
  exists out : CheckIconOutput,
    snd (check Png.metadata (always (png_response None x30 x30))
           (Some "https://example.com/favicon.png") None None)
    = Return (Some out)
    /\ content out
       = Some "data:image/png;base64,iVBORw0KGgoAAAANSUhEUgAAADAAAAAw".
Proof.
  apply (checkIcon_content Png.metadata _ None None
           "https://example.com/favicon.png"
           (png_response None x30 x30)
           (stream_of [firstn 8 (Png.header x30 x30);
                       skipn 8 (Png.header x30 x30)])
           {| Metadata.width := Some 48; Metadata.height := Some 48 |});
    try discriminate; reflexivity.
Defined.

(** C5 as stated fails: the server declares a content type, the empty
    string, and the content is built with the type inferred from the
    URL. *)
Lemma checkIcon_empty_contentType :
  contentType (png_response (Some "") x10 x10) = Some ""
  /\ snd (check Png.metadata (always (png_response (Some "") x10 x10))
            (Some "https://example.com/favicon.png") None None)
     = Return (Some {|
         content :=
           Some "data:image/png;base64,iVBORw0KGgoAAAANSUhEUgAAABAAAAAQ";
         url := Some "https://example.com/favicon.png";
         width := Some 16; height := Some 16 |})
  /\ "data:image/png;base64,iVBORw0KGgoAAAANSUhEUgAAABAAAAAQ"
     <> "data:" ++ "" ++ ";base64,"
        ++ Base64.encode (Png.header x10 x10).
Proof. repeat split. discriminate. Qed.

Lemma checkIcon_output_witness :
  snd (check Png.metadata
         (always {| status := 301; contentType := None;
                    readableStream := None |})
         (Some "https://example.com/favicon.ico") None None)
  = Return (Some {| content := None;
                    url := Some "https://example.com/favicon.ico";
                    width := None; height := None |}).
Proof.
  apply (proj1 (proj2 (checkIcon_output Png.metadata _ None None))
           "https://example.com/favicon.ico"
           {| status := 301; contentType := None; readableStream := None |}).
  - discriminate.
  - reflexivity.
  - right. simpl. lia.
Defined.

(** C10 as stated fails: the URL is not empty, the response is a web page,
    the decoder rejects it, and the check returns no output: it throws. *)
Lemma checkIcon_decode_failure :
  check Png.metadata (always page_response)
        (Some "https://example.com/favicon.ico") None None
  = ({| events := [Event.downloadable];
        requests := [("https://example.com/favicon.ico", None)] |},
     Throw DecodeError)
  /\ forall out : option CheckIconOutput,
       snd (check Png.metadata (always page_response)
              (Some "https://example.com/favicon.ico") None None)
       <> Return out.
Proof. split; [reflexivity | discriminate]. Qed.

(** ** The URL resolver *)

Lemma startsWith_slash (s : string) :
  startsWith s "/" = false -> startsWith s "//" = false.
Proof.
  unfold startsWith. destruct s as [|c s]; [reflexivity|].
  cbn [prefix]. destruct (ascii_dec "/" c) as [E|E]; [|reflexivity].
  destruct s; discriminate.
Qed.

Section ResolverFacts.

Variable new_URL : string -> Completion URL.

(** C7, amended. The four rules in their order: a reference that starts
    with [http://] or [https://] is returned unchanged, whatever the
    base; otherwise, when the base parses, a reference that starts with
    [//] is appended to the [protocol] of the base (its scheme and [:]);
    one that starts with [/] is appended to the [origin] of the base; any
    other is appended to the [href] of the base, the URL as the parser
    serializes it, after a [/] if that [href] does not end with one. The
    reference is the end of the result as it stands. *)
Theorem mergeUrlAndPath_rules (baseUrl reference : string) :
  (startsWith reference "http://" = true
   \/ startsWith reference "https://" = true ->
   mergeUrlAndPath new_URL baseUrl reference = Return reference)
  /\ (forall url : URL,
         new_URL baseUrl = Return url ->
         startsWith reference "http://" = false ->
         startsWith reference "https://" = false ->
         (startsWith reference "//" = true ->
          mergeUrlAndPath new_URL baseUrl reference = Return (protocol url ++ reference))
         /\ (startsWith reference "//" = false ->
             startsWith reference "/" = true ->
             mergeUrlAndPath new_URL baseUrl reference = Return (origin url ++ reference))
         /\ (startsWith reference "/" = false ->
             mergeUrlAndPath new_URL baseUrl reference =
             Return (href url
                       ++ (if endsWithChar "/" (href url) then "" else "/")
                       ++ reference))).
Proof.
  unfold mergeUrlAndPath. split.
  - intros [-> | ->]; [reflexivity|]. rewrite orb_true_r. reflexivity.
  - intros url Hbase -> ->. rewrite Hbase. cbn [orb].
    repeat split.
    + intros ->. reflexivity.
    + intros -> ->. reflexivity.
    + intros Hslash. rewrite (startsWith_slash _ Hslash), Hslash.
      reflexivity.
Qed.

(** C8, amended. When the base cannot be parsed, the resolver fails with
    the parser's TypeError for every reference that starts neither with
    [http://] nor with [https://]; and the reference is not validated:
    when the base parses, the resolver returns for every reference. *)
Theorem mergeUrlAndPath_invalid_base (baseUrl : string) :
  (new_URL baseUrl = Throw TypeError_InvalidURL ->
   forall reference : string,
     startsWith reference "http://" = false ->
     startsWith reference "https://" = false ->
     mergeUrlAndPath new_URL baseUrl reference = Throw TypeError_InvalidURL)
  /\ (forall url : URL,
         new_URL baseUrl = Return url ->
         forall reference : string,
         exists (merged : string),
           mergeUrlAndPath new_URL baseUrl reference = Return merged).
Proof.
  unfold mergeUrlAndPath. split.
  - intros Hbase reference -> ->. rewrite Hbase. reflexivity.
  - intros url Hbase reference. rewrite Hbase.
    destruct (startsWith reference "http://" || startsWith reference "https://");
      [eexists; reflexivity|].
    destruct (startsWith reference "//"); [eexists; reflexivity|].
    destruct (startsWith reference "/"); eexists; reflexivity.
Qed.

End ResolverFacts.

(** *** The resolver on concrete URLs *)

Lemma mergeUrlAndPath_rules_witness :
  mergeUrlAndPath PlainURL.parse "https://example.com/docs" "favicon.ico"
  = Return "https://example.com/docs/favicon.ico"
  /\ mergeUrlAndPath PlainURL.parse "https://example.com/docs/"
                     "/favicon.ico"
     = Return "https://example.com/favicon.ico"
  /\ mergeUrlAndPath PlainURL.parse "https://example.com/docs/"
                     "//cdn.example.com/favicon.ico"
     = Return "https://cdn.example.com/favicon.ico"
  /\ mergeUrlAndPath PlainURL.parse "not a url" "https://x/y"
     = Return "https://x/y".
Proof.
  split; [|split; [|split]].
  - exact (proj2 (proj2 (proj2 (mergeUrlAndPath_rules PlainURL.parse
             "https://example.com/docs" "favicon.ico") _
             eq_refl eq_refl eq_refl)) eq_refl).
  - exact (proj1 (proj2 (proj2 (mergeUrlAndPath_rules PlainURL.parse
             "https://example.com/docs/" "/favicon.ico") _
             eq_refl eq_refl eq_refl)) eq_refl eq_refl).
  - exact (proj1 (proj2 (mergeUrlAndPath_rules PlainURL.parse
             "https://example.com/docs/" "//cdn.example.com/favicon.ico") _
             eq_refl eq_refl eq_refl) eq_refl).
  - exact (proj1 (mergeUrlAndPath_rules PlainURL.parse
             "not a url" "https://x/y") (or_intror eq_refl)).
Defined.

(** C7 as stated fails in its last rule: the base is not taken as it is
    with a [/] added; the parser has lower-cased its host. *)
Lemma mergeUrlAndPath_normalizes_base :
  mergeUrlAndPath PlainURL.parse "https://Example.COM/docs" "favicon.ico"
  = Return "https://example.com/docs/favicon.ico"
  /\ mergeUrlAndPath PlainURL.parse "https://Example.COM/docs" "favicon.ico"
     <> Return ("https://Example.COM/docs" ++ "/" ++ "favicon.ico").
Proof. split; [reflexivity | discriminate]. Qed.

Lemma mergeUrlAndPath_invalid_base_witness :
  mergeUrlAndPath PlainURL.parse "not a url" "/favicon.ico"
  = Throw TypeError_InvalidURL.
Proof.
  exact (proj1 (mergeUrlAndPath_invalid_base PlainURL.parse "not a url")
           eq_refl "/favicon.ico" eq_refl eq_refl).
Defined.

(** C8 as stated fails: the base cannot be parsed and the resolver returns,
    because the reference is absolute. *)
Lemma mergeUrlAndPath_absolute_invalid_base :
  PlainURL.parse "not a url" = Throw TypeError_InvalidURL
  /\ mergeUrlAndPath PlainURL.parse "not a url" "http://x/y"
     = Return "http://x/y".
Proof. split; reflexivity. Qed.

(** ** The size attribute parser *)

Lemma append_assoc (a b c : string) : (a ++ b) ++ c = a ++ (b ++ c).
Proof. induction a as [|x a IH]; simpl; [reflexivity | now rewrite IH]. Qed.

Lemma append_nil_r (a : string) : a ++ "" = a.
Proof. induction a as [|x a IH]; simpl; [reflexivity | now rewrite IH]. Qed.

Lemma span_spec (p : ascii -> bool) (s : string) :
  forall taken left,
    span p s = (taken, left) ->
    s = taken ++ left
    /\ forallb_string p taken = true
    /\ match left with String c _ => p c = false | "" => True end.
Proof.
  induction s as [|c s IH]; simpl; intros taken left Hspan.
  - injection Hspan as <- <-. auto.
  - destruct (p c) eqn:Hc.
    + destruct (span p s) as [taken' left'].
      injection Hspan as <- <-.
      destruct (IH _ _ eq_refl) as (-> & Hall & Hstop).
      simpl. rewrite Hc, Hall. auto.
    + injection Hspan as <- <-. simpl. auto.
Qed.

Lemma span_append (p : ascii -> bool) (taken rest : string) :
  forallb_string p taken = true ->
  span p (taken ++ rest) = (taken ++ fst (span p rest), snd (span p rest)).
Proof.
  induction taken as [|c taken IH]; simpl; intros Hall.
  - destruct (span p rest); reflexivity.
  - apply andb_prop in Hall as [Hc Hall]. rewrite Hc, (IH Hall). reflexivity.
Qed.

Lemma span_stop (p : ascii -> bool) (s : string) :
  match s with String c _ => p c = false | "" => True end ->
  span p s = ("", s).
Proof.
  destruct s as [|c s]; simpl; [reflexivity|]. intros ->. reflexivity.
Qed.

Lemma starts_with_digit_stop (s : string) :
  Sizes.starts_with_digit s = false <->
  match s with String c _ => is_digit c = false | "" => True end.
Proof. destruct s; simpl; intuition. Qed.

Lemma append_empty (a b : string) : a ++ b = "" -> a = "".
Proof. destruct a; [reflexivity | discriminate]. Qed.

(** A match at the head is an occurrence at the head whose second group is
    greedy. *)
Lemma match_here_sound (s g1 g2 : string) :
  Sizes.match_here s = Some (g1, g2) ->
  exists after,
    Sizes.occurrence s "" g1 g2 after
    /\ Sizes.starts_with_digit after = false.
Proof.
  unfold Sizes.match_here, Sizes.digits.
  destruct (span is_digit s) as [t1 r1] eqn:H1.
  destruct r1 as [|c after_x]; [discriminate|].
  destruct (String.eqb_spec t1 ""); [discriminate|].
  destruct (Ascii.eqb_spec c "x"); [subst c|discriminate]. cbn [negb andb].
  destruct (span is_digit after_x) as [t2 r2] eqn:H2.
  destruct (String.eqb_spec t2 ""); [discriminate|]. cbn [negb].
  intros [= <- <-].
  apply span_spec in H1 as (-> & Hall1 & _).
  apply span_spec in H2 as (-> & Hall2 & Hstop).
  exists r2. unfold Sizes.occurrence. simpl.
  rewrite starts_with_digit_stop. auto 10.
Qed.

(** An occurrence at the head makes the match at the head succeed, with the
    same first group. *)
Lemma match_here_complete (s g1 g2 after : string) :
  Sizes.occurrence s "" g1 g2 after ->
  Sizes.match_here s
  = Some (g1, g2 ++ fst (span is_digit after)).
Proof.
  intros (-> & Hg1 & Hg2 & Hall1 & Hall2).
  unfold Sizes.match_here, Sizes.digits. simpl.
  rewrite (span_append _ _ _ Hall1). simpl. rewrite append_nil_r.
  rewrite (span_append _ _ _ Hall2).
  destruct (span is_digit after) as [more left]. simpl.
  destruct g1 as [|c1 g1]; [congruence|].
  destruct g2 as [|c2 g2]; [congruence|]. reflexivity.
Qed.

Lemma occurrence_shift (c : ascii) (s before g1 g2 after : string) :
  Sizes.occurrence s before g1 g2 after ->
  Sizes.occurrence (String c s) (String c before) g1 g2 after.
Proof. intros (-> & H). split; [reflexivity | exact H]. Qed.

Lemma occurrence_unshift (c : ascii) (s before g1 g2 after : string) :
  Sizes.occurrence (String c s) before g1 g2 after ->
  before = ""
  \/ exists before', before = String c before'
                     /\ Sizes.occurrence s before' g1 g2 after.
Proof.
  intros (Heq & H). destruct before as [|b before']; [left; reflexivity|].
  right. simpl in Heq. injection Heq as <- ->.
  exists before'. split; [reflexivity|]. split; [reflexivity | exact H].
Qed.

(** The search finds nothing only where the pattern occurs nowhere. *)
Lemma regexp_match_none (s : string) :
  Sizes.regexp_match s = None ->
  forall before g1 g2 after, ~ Sizes.occurrence s before g1 g2 after.
Proof.
  induction s as [|c s IH]; cbn [Sizes.regexp_match].
  - intros _ before g1 g2 after (Heq & Hg1 & _).
    destruct before; [|discriminate]. destruct g1; [congruence|discriminate].
  - destruct (Sizes.match_here (String c s)) as [m|] eqn:Hhere; [discriminate|].
    intros Hrest before g1 g2 after Hocc.
    destruct (occurrence_unshift _ _ _ _ _ _ Hocc)
      as [-> | (before' & -> & Hocc')].
    + rewrite (match_here_complete _ _ _ _ Hocc) in Hhere. discriminate.
    + exact (IH Hrest _ _ _ _ Hocc').
Qed.

(** What the search finds is the first occurrence. *)
Lemma regexp_match_sound (s : string) :
  forall g1 g2,
    Sizes.regexp_match s = Some (g1, g2) ->
    exists before after, Sizes.first_occurrence s before g1 g2 after.
Proof.
  induction s as [|c s IH]; intros g1 g2; cbn [Sizes.regexp_match].
  - cbn. discriminate.
  - destruct (Sizes.match_here (String c s)) as [m|] eqn:Hhere.
    + intros [= ->].
      destruct (match_here_sound _ _ _ Hhere) as (after & Hocc & Hgreedy).
      exists "", after. repeat split; try assumption; try apply Hocc.
      intros; simpl; lia.
    + intros Hrest.
      destruct (IH _ _ Hrest) as (before & after & Hocc & Hgreedy & Hleft).
      exists (String c before), after. split; [|split].
      * apply occurrence_shift, Hocc.
      * exact Hgreedy.
      * intros before' h1 h2 after' Hocc'.
        destruct (occurrence_unshift _ _ _ _ _ _ Hocc')
          as [-> | (before'' & -> & Hocc'')].
        -- rewrite (match_here_complete _ _ _ _ Hocc') in Hhere. discriminate.
        -- simpl. apply le_n_S. exact (Hleft _ _ _ _ Hocc'').
Qed.

(** The first occurrence is what the search finds. *)
Lemma regexp_match_complete (s before g1 g2 after : string) :
  Sizes.first_occurrence s before g1 g2 after ->
  Sizes.regexp_match s = Some (g1, g2).
Proof.
  revert s. induction before as [|b before IH]; intros s (Hocc & Hgreedy & Hleft).
  - assert (Hhere : Sizes.match_here s = Some (g1, g2)).
    { rewrite (match_here_complete _ _ _ _ Hocc).
      apply starts_with_digit_stop in Hgreedy.
      rewrite (span_stop _ _ Hgreedy). simpl. rewrite append_nil_r.
      reflexivity. }
    destruct s; cbn [Sizes.regexp_match]; rewrite Hhere; reflexivity.
  - pose proof Hocc as (Heq & _). simpl in Heq. subst s.
    cbn [Sizes.regexp_match].
    destruct (Sizes.match_here _) as [[h1 h2]|] eqn:Hhere.
    + exfalso.
      destruct (match_here_sound _ _ _ Hhere) as (after' & Hocc' & _).
      specialize (Hleft _ _ _ _ Hocc'). simpl in Hleft. lia.
    + apply IH. split; [|split].
      * destruct Hocc as (_ & H). split; [reflexivity | exact H].
      * exact Hgreedy.
      * intros before' h1 h2 after' Hocc'.
        specialize (Hleft _ _ _ _ (occurrence_shift b _ _ _ _ _ Hocc')).
        simpl in Hleft. lia.
Qed.

Lemma parseInt_snoc (s : string) (c : ascii) :
  Sizes.parseInt (s ++ String c "")
  = 10 * Sizes.parseInt s + Sizes.digit_value c.
Proof.
  unfold Sizes.parseInt. generalize 0.
  induction s as [|d s IH]; intros acc; simpl; [reflexivity | apply IH].
Qed.

(** C9, amended. The parser returns null on null or undefined; it returns
    null on a string in which the pattern [<digits>x<digits>] does not
    occur; otherwise it looks at the first occurrence only, and returns
    null when its two groups of digits are not the same string, and, when
    they are, the integer that the group denotes, for an integer below
    2^53. So ["16x16"] gives 16, ["16x32"] gives null and
    ["foo 32x32 bar"] gives 32. *)
Theorem parseSizesAttribute_first_match :
  parseSizesAttribute None = None
  /\ (forall s : string,
         (forall before g1 g2 after,
             ~ Sizes.occurrence s before g1 g2 after) ->
         parseSizesAttribute (Some s) = None)
  /\ (forall s before g1 g2 after : string,
         Sizes.first_occurrence s before g1 g2 after ->
         (g1 <> g2 -> parseSizesAttribute (Some s) = None)
         /\ (g1 = g2 ->
             Sizes.parseInt g1 < 2 ^ 53 ->
             parseSizesAttribute (Some s) = Some (Sizes.parseInt g1)))
  /\ parseSizesAttribute (Some "16x16") = Some 16
  /\ parseSizesAttribute (Some "16x32") = None
  /\ parseSizesAttribute (Some "foo 32x32 bar") = Some 32.
Proof.
  split; [reflexivity|]. split; [|split; [|repeat split]].
  - intros s Hnone. destruct s as [|c s]; [reflexivity|].
    cbn [parseSizesAttribute].
    destruct (Sizes.regexp_match (String c s)) as [[g1 g2]|] eqn:Hmatch;
      [|reflexivity].
    destruct (regexp_match_sound _ _ _ Hmatch) as (before & after & Hocc & _).
    destruct (Hnone _ _ _ _ Hocc).
  - intros s before g1 g2 after Hfirst.
    assert (Hparse : parseSizesAttribute (Some s) =
                     if String.eqb g1 g2 then Some (Sizes.parseInt g1)
                     else None).
    { destruct s as [|c s].
      - destruct Hfirst as ((Heq & Hg1 & _) & _).
        destruct before; [|discriminate].
        destruct g1; [congruence|discriminate].
      - cbn [parseSizesAttribute].
        rewrite (regexp_match_complete _ _ _ _ _ Hfirst).
        destruct (String.eqb g1 g2); reflexivity. }
    rewrite Hparse. split.
    + intros Hne. apply String.eqb_neq in Hne. rewrite Hne. reflexivity.
    + intros <- _. rewrite String.eqb_refl. reflexivity.
Qed.

Lemma parseSizesAttribute_first_match_witness :
  parseSizesAttribute (Some "16x16 32x32") = Some 16.
Proof.
  refine (proj2 (proj1 (proj2 (proj2 parseSizesAttribute_first_match))
                   "16x16 32x32" "" "16" "16" " 32x32" _) eq_refl _).
  - split; [|split].
    + repeat split; discriminate.
    + reflexivity.
    + intros; simpl; lia.
  - reflexivity.
Defined.

(** C9 as stated fails: in ["016x16"] the pattern occurs, its two groups
    denote the same number, and the parser returns null. *)
Lemma parseSizesAttribute_leading_zero :
  Sizes.regexp_match "016x16" = Some ("016", "16")
  /\ Sizes.parseInt "016" = Sizes.parseInt "16"
  /\ parseSizesAttribute (Some "016x16") = None
  /\ parseSizesAttribute (Some "016x16") <> Some (Sizes.parseInt "016").
Proof. repeat split; discriminate. Qed.

(** ** The two scenarios of the specification *)

Example scenario_square_48 :
  check Png.metadata (always (png_response (Some "image/png") x30 x30))
        (Some "https://example.com/favicon-48x48.png") None (Some 48)
  = ({| events := [Event.downloadable; Event.square 48; Event.rightSize 48];
        requests := [("https://example.com/favicon-48x48.png", None)] |},
     Return (Some {|
       content :=
         Some "data:image/png;base64,iVBORw0KGgoAAAANSUhEUgAAADAAAAAw";
       url := Some "https://example.com/favicon-48x48.png";
       width := Some 48; height := Some 48 |})).
Proof. reflexivity. Qed.

Example scenario_32_by_16 :
  check Png.metadata (always (png_response (Some "image/png") x20 x10))
        (Some "https://example.com/icon.png") None None
  = ({| events := [Event.downloadable; Event.notSquare 32 16];
        requests := [("https://example.com/icon.png", None)] |},
     Return (Some {|
       content :=
         Some "data:image/png;base64,iVBORw0KGgoAAAANSUhEUgAAACAAAAAQ";
       url := Some "https://example.com/icon.png";
       width := Some 32; height := Some 16 |})).
Proof. reflexivity. Qed.

(* ================================================================== *)
(** * Further properties of the helpers *)

(** ** The collectors *)

Lemma copy_chunks_checked_spec (chunks : list Uint8Array) :
  forall filled tail,
    List.length tail = List.length (List.concat chunks) ->
    copy_chunks_checked chunks (filled ++ tail)%list (List.length filled) =
    Some ((filled ++ List.concat chunks)%list,
          (List.length filled + List.length (List.concat chunks))%nat).
Proof.
  unfold copy_chunks_checked.
  induction chunks as [|c cs IH]; intros filled tail Hlen; simpl in *.
  - destruct tail; [|discriminate]. rewrite Nat.add_0_r. reflexivity.
  - rewrite length_app in Hlen. unfold set_checked.
    destruct (Nat.leb_spec (List.length filled + List.length c)
                           (List.length (filled ++ tail)%list)) as [_|Hout];
      [|rewrite length_app in Hout; lia].
    rewrite set_append by lia.
    replace (List.length filled + List.length c)%nat
      with (List.length (filled ++ c)%list)
      by (rewrite length_app; reflexivity).
    rewrite IH by (rewrite length_skipn; lia).
    rewrite !length_app, <- app_assoc. do 2 f_equal. lia.
Qed.

Lemma new_Uint8Array_length (chunks : list Uint8Array) :
  List.length (new_Uint8Array (total_length chunks))
  = List.length (List.concat chunks).
Proof.
  unfold new_Uint8Array. rewrite repeat_length. apply total_length_concat.
Qed.

Lemma copy_chunks_from_zero (chunks : list Uint8Array) :
  copy_chunks chunks (new_Uint8Array (total_length chunks)) 0%nat
  = (List.concat chunks, total_length chunks).
Proof.
  pose proof (copy_chunks_spec chunks [] _ (new_Uint8Array_length chunks))
    as H.
  simpl in H. rewrite H, total_length_concat. reflexivity.
Qed.

(** X1. In the copy loop of the collectors no [set] is out of range: run
    with the bounds check of [Uint8Array.prototype.set], the loop over any
    chunks, started on the zero array of their total length, ends without
    a RangeError, with the same array as the loop of the code and the
    offset at the end of it. *)
Theorem copy_chunks_never_out_of_range (chunks : list Uint8Array) :
  copy_chunks_checked chunks (new_Uint8Array (total_length chunks)) 0%nat
  = Some (copy_chunks chunks (new_Uint8Array (total_length chunks)) 0%nat)
  /\ snd (copy_chunks chunks (new_Uint8Array (total_length chunks)) 0%nat)
     = List.length (new_Uint8Array (total_length chunks)).
Proof.
  rewrite copy_chunks_from_zero. split.
  - pose proof (copy_chunks_checked_spec chunks [] _
                  (new_Uint8Array_length chunks)) as H.
    simpl in H. rewrite H, total_length_concat. reflexivity.
  - cbn [snd]. unfold new_Uint8Array. rewrite repeat_length. reflexivity.
Qed.

(** X2. [readableStreamToBuffer] on a stream that delivers its chunks and
    closes returns the bytes of the chunks in arrival order, as many as the
    chunk lengths add up to, empty chunks included; on a stream that fails
    it rejects, whatever was delivered before. *)
Theorem readableStreamToBuffer_collects (chunks : list Uint8Array) :
  readableStreamToBuffer {| pending := chunks; errored := false |}
  = Return (List.concat chunks)
  /\ List.length (List.concat chunks)
     = list_sum (map (@List.length byte) chunks)
  /\ readableStreamToBuffer {| pending := chunks; errored := true |}
     = Throw StreamError.
Proof.
  rewrite !readableStreamToBuffer_spec. cbn [errored pending].
  repeat split.
  induction chunks as [|c cs IH]; [reflexivity|].
  cbn [List.concat map list_sum]. rewrite length_app, IH. reflexivity.
Qed.

Section TextFacts.

Variable TextEncoder_encode : string -> Uint8Array.
Variable TextDecoder_decode : Uint8Array -> string.

(** X3. [readableStreamToString] decodes the whole body at once: on a
    stream that closes it returns the decoding of the concatenated chunks,
    so two streams that carry the same bytes in different chunks give the
    same string; on a stream that fails it rejects. *)
Theorem readableStreamToString_decodes_whole (chunks : list Uint8Array) :
  readableStreamToString TextDecoder_decode
                         {| pending := chunks; errored := false |}
  = Return (TextDecoder_decode (List.concat chunks))
  /\ (forall chunks' : list Uint8Array,
         List.concat chunks' = List.concat chunks ->
         readableStreamToString TextDecoder_decode
                                {| pending := chunks'; errored := false |}
         = readableStreamToString TextDecoder_decode
                                  {| pending := chunks; errored := false |})
  /\ readableStreamToString TextDecoder_decode
                            {| pending := chunks; errored := true |}
     = Throw StreamError.
Proof.
  assert (Hwhole : forall cs,
             readableStreamToString TextDecoder_decode
                                    {| pending := cs; errored := false |}
             = Return (TextDecoder_decode (List.concat cs))).
  { intros cs. unfold readableStreamToString. cbn [pending errored].
    rewrite read_loop_spec. cbn [app].
    rewrite copy_chunks_from_zero. reflexivity. }
  split; [apply Hwhole|]. split.
  - intros chunks' Hsame. rewrite !Hwhole, Hsame. reflexivity.
  - unfold readableStreamToString. cbn [pending errored].
    rewrite read_loop_spec. reflexivity.
Qed.

End TextFacts.

Section TextRoundTrip.

Variable TextEncoder_encode : string -> Uint8Array.
Variable TextDecoder_decode : Uint8Array -> string.

(** X4. A string sent through [stringToReadableStream] and read back:
    [readableStreamToBuffer] returns exactly the encoder's bytes, and
    [readableStreamToString] returns the decoding of the encoding, which
    is the string itself wherever the codec round-trips. *)
Theorem stringToReadableStream_round_trip (str : string) :
  readableStreamToBuffer (stringToReadableStream TextEncoder_encode str)
  = Return (TextEncoder_encode str)
  /\ readableStreamToString TextDecoder_decode
       (stringToReadableStream TextEncoder_encode str)
     = Return (TextDecoder_decode (TextEncoder_encode str))
  /\ (TextDecoder_decode (TextEncoder_encode str) = str ->
      readableStreamToString TextDecoder_decode
        (stringToReadableStream TextEncoder_encode str)
      = Return str).
Proof.
  assert (Hread : readableStreamToString TextDecoder_decode
                    (stringToReadableStream TextEncoder_encode str)
                  = Return (TextDecoder_decode (TextEncoder_encode str))).
  { unfold readableStreamToString, stringToReadableStream.
    cbn [pending errored]. rewrite read_loop_spec. cbn [app].
    rewrite copy_chunks_from_zero. cbn [fst List.concat].
    rewrite app_nil_r. reflexivity. }
  split; [|split].
  - unfold stringToReadableStream. rewrite readableStreamToBuffer_spec.
    cbn [errored pending List.concat]. rewrite app_nil_r. reflexivity.
  - exact Hread.
  - intros Hcodec. rewrite Hread, Hcodec. reflexivity.
Qed.

End TextRoundTrip.

Lemma stringToReadableStream_round_trip_witness :
  readableStreamToString string_of_list_byte
    (stringToReadableStream list_byte_of_string "<link rel=icon>")
  = Return "<link rel=icon>".
Proof.
  apply (proj2 (proj2 (stringToReadableStream_round_trip
                         list_byte_of_string string_of_list_byte
                         "<link rel=icon>"))).
  reflexivity.
Defined.

(** ** The report predicates *)

Lemma some_status_In (status : CheckerStatus.t)
    (messages : list CheckerMessage.t) :
  some_status status messages = true <->
  exists message, In message messages
                  /\ CheckerMessage.status message = status.
Proof.
  unfold some_status. rewrite existsb_exists.
  split; intros (m & Hin & Hm); exists m; split; try assumption.
  - destruct (CheckerMessage.status m), status; try discriminate; reflexivity.
  - rewrite Hm. destruct status; reflexivity.
Qed.

Lemma some_status_all_messages (status : CheckerStatus.t)
    (report : FaviconReport) :
  some_status status (all_messages report) =
  some_status status (DesktopFaviconReport.messages (desktop report))
  || some_status status (TouchIconReport.messages (touchIcon report))
  || some_status status (WebManifestReport.messages (webAppManifest report)).
Proof.
  unfold some_status, all_messages. rewrite !existsb_app, orb_assoc.
  reflexivity.
Qed.

(** X5. [reportHasErrors] holds exactly when some message of one of the
    three sections has the status [Error], and [reportHasWarnings] exactly
    when one has the status [Warning]; the other fields of the report and
    the order of the messages play no part. *)
Theorem reportHas_iff (report : FaviconReport) :
  (reportHasErrors report = true <->
   exists message, In message (all_messages report)
                   /\ CheckerMessage.status message = CheckerStatus.Error)
  /\ (reportHasWarnings report = true <->
      exists message, In message (all_messages report)
                      /\ CheckerMessage.status message
                         = CheckerStatus.Warning).
Proof.
  unfold reportHasErrors, reportHasWarnings.
  rewrite <- !some_status_all_messages. split; apply some_status_In.
Qed.

(** X6. The two predicates grow with the report: if every message of a
    report is also a message of another (messages were appended to any
    section, or moved, or reordered), then an error, or a warning, found in
    the first is found in the second. *)
Theorem reportHas_monotone (report report' : FaviconReport) :
  incl (all_messages report) (all_messages report') ->
  (reportHasErrors report = true -> reportHasErrors report' = true)
  /\ (reportHasWarnings report = true -> reportHasWarnings report' = true).
Proof.
  intros Hincl. unfold reportHasErrors, reportHasWarnings.
  rewrite <- !some_status_all_messages, !some_status_In.
  split; intros (m & Hin & Hm); exists m; split; auto.
Qed.

(** X7. A report in which every message has the status [Ok], and so the
    report without any message, has neither errors nor warnings. *)
Theorem reportHas_quiet (report : FaviconReport) :
  (forall message, In message (all_messages report) ->
                   CheckerMessage.status message = CheckerStatus.Ok) ->
  reportHasErrors report = false /\ reportHasWarnings report = false.
Proof.
  intros Hok. unfold reportHasErrors, reportHasWarnings.
  rewrite <- !some_status_all_messages.
  split; apply not_true_is_false; rewrite some_status_In;
    intros (m & Hin & Hm); rewrite (Hok m Hin) in Hm; discriminate.
Qed.

Lemma reportHas_monotone_witness :
  reportHasWarnings (report_of [ok_message] [warning_message] [error_message])
  = true.
Proof.
  apply (proj2 (reportHas_monotone
                  (report_of [] [warning_message] [])
                  (report_of [ok_message] [warning_message] [error_message])
                  ltac:(intros m Hin; simpl in *; tauto))).
  reflexivity.
Defined.

Lemma reportHas_quiet_witness :
  reportHasErrors (report_of [ok_message] [] [ok_message]) = false
  /\ reportHasWarnings (report_of [ok_message] [] [ok_message]) = false.
Proof.
  apply (reportHas_quiet (report_of [ok_message] [] [ok_message])).
  intros m [<- | [<- | []]]; reflexivity.
Defined.

(** ** The MIME resolver *)

Lemma last_nonempty (l : list string) (d d' : string) :
  l <> [] -> last l d = last l d'.
Proof.
  induction l as [|x l IH]; [contradiction|]. intros _.
  destruct l as [|y l]; [reflexivity|].
  change (last (y :: l) d = last (y :: l) d'). apply IH. discriminate.
Qed.

(** What [split(c).pop()] returns holds no [c], and the string is it, or
    ends with [c] and it. *)
Lemma pop_split_inv (c : ascii) (s : string) :
  forall e,
    pop (split c s) = Some e ->
    forallb_string (fun a => negb (Ascii.eqb a c)) e = true
    /\ (s = e \/ exists stem, s = stem ++ String c e).
Proof.
  induction s as [|a s IH]; intros e.
  - simpl. intros [= <-]. auto.
  - cbn [split]. destruct (Ascii.eqb_spec a c) as [->|Hac].
    + change ("" :: split c s) with ([""] ++ split c s)%list.
      rewrite (pop_append [""] (split c s)) by apply split_nonempty.
      intros Hpop. destruct (IH _ Hpop) as (Hfree & [->|(stem & ->)]).
      * split; [assumption|]. right. exists "". reflexivity.
      * split; [assumption|]. right. exists (String c stem). reflexivity.
    + pose proof (split_nonempty c s) as Hne.
      destruct (split c s) as [|seg segs] eqn:Hsplit; [contradiction|].
      destruct segs as [|seg' segs].
      * cbn. intros [= <-].
        destruct (IH seg eq_refl) as (Hfree & [->|(stem & ->)]).
        -- split; [|left; reflexivity]. cbn.
           apply Ascii.eqb_neq in Hac. rewrite Hac. exact Hfree.
        -- rewrite split_append in Hsplit.
           pose proof (split_nonempty c stem).
           pose proof (split_nonempty c seg).
           destruct (split c stem) as [|? [|]]; destruct (split c seg);
             try contradiction; discriminate.
      * intros Hpop.
        assert (Hpop' : pop (seg :: seg' :: segs) = Some e).
        { cbn [pop] in *. rewrite <- Hpop. f_equal.
          apply last_nonempty. discriminate. }
        destruct (IH _ Hpop') as (Hfree & [->|(stem & ->)]).
        -- rewrite (split_no_separator _ _ Hfree) in Hsplit. discriminate.
        -- split; [assumption|]. right. exists (String a stem). reflexivity.
Qed.

(** The [switch] of [pathToMimeType], case by case. *)
Lemma pathToMimeType_cases (path : string) :
  exists ext,
    pop (split "." path) = Some ext
    /\ ((ext = "png" /\ pathToMimeType path = "image/png")
        \/ (ext = "svg" /\ pathToMimeType path = "image/svg+xml")
        \/ (ext = "ico" /\ pathToMimeType path = "image/x-icon")
        \/ (ext = "jpg" /\ pathToMimeType path = "image/jpeg")
        \/ (ext = "jpeg" /\ pathToMimeType path = "image/jpeg")
        \/ (~ In ext ["png"; "svg"; "ico"; "jpg"; "jpeg"]
            /\ pathToMimeType path = "application/octet-stream")).
Proof.
  unfold pathToMimeType.
  destruct (pop (split "." path)) as [ext|] eqn:E.
  2:{ unfold pop in E. pose proof (split_nonempty "." path).
      destruct (split "." path); [contradiction|discriminate]. }
  exists ext. split; [reflexivity|]. clear E.
  repeat match goal with
         | |- context [match ?x with _ => _ end] => is_var x; destruct x
         end;
    first [ do 5 right; split; [|reflexivity];
            intros [H|[H|[H|[H|[H|[]]]]]]; discriminate H
          | tauto ].
Qed.

Lemma pathToMimeType_nonempty (path : string) : pathToMimeType path <> "".
Proof.
  destruct (pathToMimeType_cases path)
    as (ext & _ & [[_ ->]|[[_ ->]|[[_ ->]|[[_ ->]|[[_ ->]|[_ ->]]]]]]);
    discriminate.
Qed.

(** X8. Only what follows the last dot of a path decides its MIME type:
    the directories, the host and the base name play no part, and a path
    with no dot at all is read as being its own extension. *)
Theorem pathToMimeType_extension_only (stem ext : string) :
  forallb_string (fun a => negb (Ascii.eqb a ".")) ext = true ->
  pathToMimeType (stem ++ String "." ext) = pathToMimeType ext.
Proof.
  intros Hfree. unfold pathToMimeType.
  rewrite (extension_after_last_dot _ _ Hfree).
  rewrite (split_no_separator _ _ Hfree). reflexivity.
Qed.

Lemma pathToMimeType_extension_only_witness :
  pathToMimeType ("https://cdn.example.com/v1.2/favicon" ++ ".svg")
  = pathToMimeType "svg".
Proof.
  apply (pathToMimeType_extension_only
           "https://cdn.example.com/v1.2/favicon" "svg").
  reflexivity.
Defined.

(** X9. A path is given a type other than [application/octet-stream]
    exactly when it is one of [png], [svg], [ico], [jpg], [jpeg], in lower
    case, or ends with a dot and one of these; a query string, a fragment
    or upper-case letters after the last dot give the default. *)
Theorem pathToMimeType_recognised (path : string) :
  pathToMimeType path <> "application/octet-stream" <->
  exists ext,
    In ext ["png"; "svg"; "ico"; "jpg"; "jpeg"]
    /\ (path = ext \/ exists stem, path = stem ++ String "." ext).
Proof.
  split.
  - intros Hknown.
    destruct (pathToMimeType_cases path) as (ext & Hpop & Hcase).
    exists ext. split.
    + destruct Hcase as [[-> _]|[[-> _]|[[-> _]|[[-> _]|[[-> _]|[_ H]]]]]];
        simpl; auto 10; contradiction.
    + apply (pop_split_inv _ _ _ Hpop).
  - intros (ext & Hin & Hshape).
    assert (Hfree : forallb_string (fun a => negb (Ascii.eqb a ".")) ext
                    = true)
      by (destruct Hin as [<-|[<-|[<-|[<-|[<-|[]]]]]]; reflexivity).
    assert (Hext : pathToMimeType ext <> "application/octet-stream")
      by (destruct Hin as [<-|[<-|[<-|[<-|[<-|[]]]]]]; discriminate).
    destruct Hshape as [->|(stem & ->)]; [exact Hext|].
    unfold pathToMimeType in *.
    rewrite (extension_after_last_dot _ _ Hfree).
    rewrite (split_no_separator _ _ Hfree) in Hext. exact Hext.
Qed.

(** ** The classifier, path by path *)

Lemma check_outcome_correct
    (sharp_metadata : Buffer -> Completion Metadata.t) (server : Server)
    (iconUrl : option string) (mimeType : option string)
    (expectedWidthHeight : option Z) :
  check sharp_metadata server iconUrl mimeType expectedWidthHeight
  = check_outcome sharp_metadata server iconUrl mimeType expectedWidthHeight.
Proof.
  unfold check_outcome.
  destruct iconUrl as [[|c rest]|]; [reflexivity| |reflexivity].
  cbn [Truthy.str Truthy.str_or negb].
  unfold check, checkIcon, bind, fetcherOf. cbn beta iota.
  destruct (server (String c rest) mimeType) as [res|e]; [|reflexivity].
  destruct (status res =? 404); [reflexivity|].
  rewrite Z.geb_leb. destruct (300 <=? status res); [reflexivity|].
  destruct (readableStream res) as [stream|]; [|reflexivity].
  cbn [downloadable recorder]. unfold emit at 1, lift.
  rewrite readableStreamToBuffer_spec.
  destruct (errored stream); [reflexivity|].
  destruct (sharp_metadata (List.concat (pending stream))) as [meta|e];
    [|reflexivity].
  rewrite report_dimensions_recorder. reflexivity.
Qed.

(** The events that follow [downloadable], shape by shape. *)
Lemma dimension_events_shape (meta : Metadata.t)
    (expectedWidthHeight : option Z) :
  (dimension_events meta expectedWidthHeight = []
   /\ (Truthy.num (Metadata.width meta) = false
       \/ Truthy.num (Metadata.height meta) = false))
  \/ (exists w h,
         Metadata.width meta = Some w /\ Metadata.height meta = Some h
         /\ w <> 0 /\ h <> 0 /\ w <> h
         /\ dimension_events meta expectedWidthHeight
            = [Event.notSquare w h])
  \/ (exists n,
         Metadata.width meta = Some n /\ Metadata.height meta = Some n
         /\ n <> 0
         /\ ((dimension_events meta expectedWidthHeight = [Event.square n]
              /\ Truthy.num expectedWidthHeight = false)
             \/ (dimension_events meta expectedWidthHeight
                 = [Event.square n; Event.rightSize n]
                 /\ expectedWidthHeight = Some n)
             \/ (exists expected,
                    dimension_events meta expectedWidthHeight
                    = [Event.square n; Event.wrongSize n]
                    /\ expectedWidthHeight = Some expected
                    /\ expected <> 0 /\ expected <> n))).
Proof.
  destruct meta as [[w|] [h|]]; cbn [Metadata.width Metadata.height];
    try (left; split; [reflexivity | cbn; auto]).
  destruct (Z.eq_dec w 0) as [->|Hw];
    [left; split; [reflexivity | cbn; auto]|].
  destruct (Z.eq_dec h 0) as [->|Hh].
  { left. split; [|cbn; auto].
    unfold dimension_events, report_dimensions. cbn.
    rewrite andb_false_r. reflexivity. }
  destruct (Z.eq_dec w h) as [<-|Hwh].
  - right; right. exists w. repeat split; try assumption.
    rewrite dimension_events_square by assumption.
    destruct expectedWidthHeight as [e|]; [|left; split; reflexivity].
    destruct (Z.eqb_spec e 0) as [->|He]; [left; split; reflexivity|].
    destruct (Z.eqb_spec e w) as [->|Hew].
    + right; left. split; reflexivity.
    + right; right. exists e. repeat split; assumption.
  - right; left. exists w, h. repeat split; try assumption.
    rewrite dimension_events_notSquare by assumption.
    destruct (Z.eqb_spec w 0); [contradiction|].
    destruct (Z.eqb_spec h 0); [contradiction|]. reflexivity.
Qed.

(** Walking the paths of [check_outcome]. *)
Ltac walk_outcome :=
  rewrite ?check_outcome_correct; unfold check_outcome;
  cbn [Truthy.str Truthy.str_or negb];
  repeat match goal with
         | |- context [match ?server ?u ?m with Return _ => _ | Throw _ => _ end] =>
             destruct (server u m) as [?res|?e]
         | |- context [status ?res =? 404] =>
             destruct (Z.eqb_spec (status res) 404)
         | |- context [300 <=? status ?res] =>
             destruct (Z.leb_spec 300 (status res))
         | |- context [readableStream ?res] =>
             destruct (readableStream res) as [?stream|]
         | |- context [errored ?stream] =>
             destruct (errored stream)
         | |- context [match ?sharp ?b with Return _ => _ | Throw _ => _ end] =>
             destruct (sharp b) as [?meta|?e]
         end;
  cbn [fst snd events requests].

Section ClassifierPaths.

Variable sharp_metadata : Buffer -> Completion Metadata.t.
Variable server : Server.
Variables (mimeType : option string) (expectedWidthHeight : option Z).

(** X10. A check with a non-empty URL calls the fetcher exactly once, with
    that URL and the content type it was given, whatever the server, the
    stream and the decoder then do, failures included. *)
Theorem checkIcon_one_request (iconUrl : string) :
  iconUrl <> "" ->
  requests (fst (check sharp_metadata server (Some iconUrl) mimeType
                       expectedWidthHeight))
  = [(iconUrl, mimeType)].
Proof.
  intros Hurl. destruct iconUrl as [|c rest]; [congruence|].
  walk_outcome; reflexivity.
Qed.

(** X11. Failures are not caught. With a non-empty URL: a rejected fetch
    makes the check throw the same error without any event; a status
    below 300 with a stream that fails makes it throw after [downloadable]
    alone; so does a body that the decoder rejects, with the decoder's
    error. *)
Theorem checkIcon_failures_propagate (iconUrl : string) :
  iconUrl <> "" ->
  (forall e,
      server iconUrl mimeType = Throw e ->
      check sharp_metadata server (Some iconUrl) mimeType expectedWidthHeight
      = ({| events := []; requests := [(iconUrl, mimeType)] |}, Throw e))
  /\ (forall res stream,
         server iconUrl mimeType = Return res ->
         status res < 300 ->
         readableStream res = Some stream ->
         (errored stream = true ->
          check sharp_metadata server (Some iconUrl) mimeType
                expectedWidthHeight
          = ({| events := [Event.downloadable];
                requests := [(iconUrl, mimeType)] |}, Throw StreamError))
         /\ (forall e,
                errored stream = false ->
                sharp_metadata (List.concat (pending stream)) = Throw e ->
                check sharp_metadata server (Some iconUrl) mimeType
                      expectedWidthHeight
                = ({| events := [Event.downloadable];
                      requests := [(iconUrl, mimeType)] |}, Throw e))).
Proof.
  intros Hurl. destruct iconUrl as [|c rest]; [congruence|].
  rewrite check_outcome_correct. unfold check_outcome.
  cbn [Truthy.str Truthy.str_or negb]. split.
  - intros e ->. reflexivity.
  - intros res stream -> Hstatus ->.
    destruct (Z.eqb_spec (status res) 404); [lia|].
    destruct (Z.leb_spec 300 (status res)); [lia|].
    split.
    + intros ->. reflexivity.
    + intros e -> ->. reflexivity.
Qed.

(** X12. The events of a check, for every input, have one of these
    shapes: [noHref]; [icon404]; [cannotGet] alone, with a status of at
    least 300 other than 404; nothing; or [downloadable] followed by
    nothing, by [notSquare] with two different sizes, or by [square]
    and then at most one of [rightSize] and [wrongSize] with the
    same size. So there are at most three events, and an outcome of the
    fetch is never mixed with another. *)
Theorem checkIcon_event_shapes (iconUrl : option string) :
  let emitted :=
    events (fst (check sharp_metadata server iconUrl mimeType
                       expectedWidthHeight)) in
  emitted = [Event.noHref]
  \/ emitted = [Event.icon404]
  \/ (exists status, 300 <= status /\ status <> 404
                     /\ emitted = [Event.cannotGet status])
  \/ emitted = []
  \/ emitted = [Event.downloadable]
  \/ (exists w h, w <> h
                  /\ emitted = [Event.downloadable; Event.notSquare w h])
  \/ (exists n,
         emitted = [Event.downloadable; Event.square n]
         \/ emitted = [Event.downloadable; Event.square n;
                       Event.rightSize n]
         \/ emitted = [Event.downloadable; Event.square n;
                       Event.wrongSize n]).
Proof.
  cbv zeta. destruct iconUrl as [[|c rest]|]; walk_outcome; auto 10.
  - right; right; left. exists (status res). auto.
  - destruct (dimension_events_shape meta expectedWidthHeight)
      as [[-> _]|[(w & h & _ & _ & _ & _ & Hwh & ->)
                 |(sz & _ & _ & _ & [[-> _]|[[-> _]|(x & -> & _)]])]].
    + auto 10.
    + do 5 right; left. exists w, h. auto.
    + do 6 right. exists sz. auto.
    + do 6 right. exists sz. auto.
    + do 6 right. exists sz. auto.
Qed.

End ClassifierPaths.

(** What an expected size adds to the events that follow [downloadable]. *)
Lemma dimension_events_expected (meta : Metadata.t)
    (expectedWidthHeight : option Z) :
  exists last_event,
    dimension_events meta expectedWidthHeight
    = (dimension_events meta None ++ last_event)%list
    /\ (last_event = []
        \/ exists n, last_event = [Event.rightSize n]
                     \/ last_event = [Event.wrongSize n]).
Proof.
  destruct meta as [[w|] [h|]];
    try (exists []; split; [reflexivity | auto]).
  destruct (Z.eq_dec w 0) as [->|Hw];
    [exists []; split; [reflexivity | auto]|].
  destruct (Z.eq_dec w h) as [<-|Hwh].
  - rewrite !dimension_events_square by assumption.
    destruct expectedWidthHeight as [e|];
      [|exists []; split; [reflexivity | auto]].
    destruct (e =? 0); [exists []; split; [reflexivity | auto]|].
    destruct (e =? w).
    + exists [Event.rightSize w]. split; [reflexivity | eauto].
    + exists [Event.wrongSize w]. split; [reflexivity | eauto].
  - rewrite !dimension_events_notSquare by assumption.
    exists []. split; [rewrite app_nil_r; reflexivity | auto].
Qed.

Section ClassifierOutput.

Variable sharp_metadata : Buffer -> Completion Metadata.t.
Variable server : Server.
Variables (mimeType : option string) (expectedWidthHeight : option Z).

(** X13. The events and the returned output of a check agree: when
    [square] was emitted with a size, the output has that width and that
    height; when [notSquare] was, the output has its width and its height;
    [rightSize] is emitted only with the expected size itself, and
    [wrongSize] only with a size that is not the expected one. *)
Theorem checkIcon_events_match_output (iconUrl : option string)
    (out : CheckIconOutput) :
  snd (check sharp_metadata server iconUrl mimeType expectedWidthHeight)
  = Return (Some out) ->
  let emitted :=
    events (fst (check sharp_metadata server iconUrl mimeType
                       expectedWidthHeight)) in
  (forall n, In (Event.square n) emitted ->
             width out = Some n /\ height out = Some n)
  /\ (forall w h, In (Event.notSquare w h) emitted ->
                  width out = Some w /\ height out = Some h)
  /\ (forall n, In (Event.rightSize n) emitted ->
                expectedWidthHeight = Some n /\ width out = Some n)
  /\ (forall n, In (Event.wrongSize n) emitted ->
                exists expected, expectedWidthHeight = Some expected
                                 /\ expected <> n /\ width out = Some n).
Proof.
  cbv zeta. destruct iconUrl as [[|c rest]|]; walk_outcome;
    intros [= <-]; cbn [width height];
    try (repeat split; intros; repeat
           match goal with
           | H : In _ _ |- _ => destruct H as [H|H]; try discriminate H
           end; contradiction).
  assert (Hnum : forall z, z <> 0 ->
                           Truthy.num_or_null (Some z) = Some z).
  { intros z Hz. unfold Truthy.num_or_null, Truthy.num.
    destruct (Z.eqb_spec z 0); [contradiction | reflexivity]. }
  destruct (dimension_events_shape meta expectedWidthHeight)
    as [[-> _]|[(w & h & -> & -> & Hw & Hh & Hwh & ->)
               |(sz & -> & -> & Hsz
                 & [[-> _]|[[-> ->]|(x & -> & -> & Hx & Hxsz)]])]];
    rewrite ?Hnum by assumption;
    repeat split; intros;
    repeat match goal with
           | H : In _ _ |- _ => destruct H as [H|H]; try discriminate H
           | H : @eq Event.t _ _ |- _ => inversion H; subst; clear H
           end;
    try contradiction; eauto.
Qed.

(** X14. An output that a check returns is for the URL that was checked;
    its width and its height are null or not zero; and it has a content
    exactly when [downloadable] was emitted, its width and height being
    null when it has none. *)
Theorem checkIcon_output_shape (iconUrl : option string)
    (out : CheckIconOutput) :
  snd (check sharp_metadata server iconUrl mimeType expectedWidthHeight)
  = Return (Some out) ->
  url out = iconUrl
  /\ width out <> Some 0 /\ height out <> Some 0
  /\ (content out <> None <->
      In Event.downloadable
         (events (fst (check sharp_metadata server iconUrl mimeType
                             expectedWidthHeight))))
  /\ (content out = None -> width out = None /\ height out = None).
Proof.
  assert (Hnum : forall o, Truthy.num_or_null o <> Some 0).
  { intros [z|]; unfold Truthy.num_or_null, Truthy.num; [|discriminate].
    destruct (Z.eqb_spec z 0); cbn; congruence. }
  destruct iconUrl as [[|c rest]|]; walk_outcome;
    intros [= <-]; cbn [url width height content];
    repeat split; try discriminate; try apply Hnum; try congruence;
    try (intros Hin; simpl in Hin;
         repeat (destruct Hin as [Hin|Hin]; try discriminate Hin);
         contradiction);
    try (intros; left; reflexivity).
Qed.

(** X15. The expected size changes nothing but the last event: for any
    two expected sizes, or none, a check returns the same value or throws
    the same error, and sends the same request; and the events of a check
    with an expected size are those of the check without one, followed by
    at most one [rightSize] or [wrongSize]. *)
Theorem checkIcon_expected_size_only_adds_event (iconUrl : option string)
    (other : option Z) :
  snd (check sharp_metadata server iconUrl mimeType expectedWidthHeight)
  = snd (check sharp_metadata server iconUrl mimeType other)
  /\ requests (fst (check sharp_metadata server iconUrl mimeType
                          expectedWidthHeight))
     = requests (fst (check sharp_metadata server iconUrl mimeType other))
  /\ exists last_event,
       events (fst (check sharp_metadata server iconUrl mimeType
                          expectedWidthHeight))
       = (events (fst (check sharp_metadata server iconUrl mimeType None))
          ++ last_event)%list
       /\ (last_event = []
           \/ exists n, last_event = [Event.rightSize n]
                        \/ last_event = [Event.wrongSize n]).
Proof.
  rewrite !check_outcome_correct. unfold check_outcome.
  destruct iconUrl as [[|c rest]|];
    cbn [Truthy.str Truthy.str_or negb fst snd events requests];
    try (repeat split; exists []; split; [reflexivity | auto]).
  destruct (server (String c rest) mimeType) as [res|e];
    [|repeat split; exists []; split; [reflexivity | auto]].
  destruct (status res =? 404);
    [repeat split; exists []; split; [reflexivity | auto]|].
  destruct (300 <=? status res);
    [repeat split; exists []; split; [reflexivity | auto]|].
  destruct (readableStream res) as [stream|];
    [|repeat split; exists []; split; [reflexivity | auto]].
  destruct (errored stream);
    [repeat split; exists []; split; [reflexivity | auto]|].
  destruct (sharp_metadata (List.concat (pending stream))) as [meta|e];
    [|repeat split; exists []; split; [reflexivity | auto]].
  cbn [fst snd events requests]. repeat split.
  destruct (dimension_events_expected meta expectedWidthHeight)
    as (last_event & -> & Hlast).
  exists last_event. split; [reflexivity | exact Hlast].
Qed.

End ClassifierOutput.

Lemma checkIcon_one_request_witness :
  requests (fst (check Png.metadata (always page_response)
                       (Some "https://example.com/favicon.ico")
                       (Some "image/x-icon") None))
  = [("https://example.com/favicon.ico", Some "image/x-icon")].
Proof.
  apply (checkIcon_one_request Png.metadata (always page_response)
           (Some "image/x-icon") None "https://example.com/favicon.ico").
  discriminate.
Defined.

Lemma checkIcon_failures_propagate_witness :
  check Png.metadata (fun _ _ => Throw FetchError)
        (Some "https://example.com/favicon.ico") None None
  = ({| events := [];
        requests := [("https://example.com/favicon.ico", None)] |},
     Throw FetchError)
  /\ check Png.metadata
           (always {| status := 200; contentType := None;
                      readableStream :=
                        Some {| pending := [Png.header x10 x10];
                                errored := true |} |})
           (Some "https://example.com/favicon.ico") None None
     = ({| events := [Event.downloadable];
           requests := [("https://example.com/favicon.ico", None)] |},
        Throw StreamError).
Proof.
  split.
  - apply (proj1 (checkIcon_failures_propagate Png.metadata
                    (fun _ _ => Throw FetchError) None None
                    "https://example.com/favicon.ico"
                    ltac:(discriminate))).
    reflexivity.
  - apply (proj1 (proj2 (checkIcon_failures_propagate Png.metadata
                           (always {| status := 200; contentType := None;
                                      readableStream :=
                                        Some {| pending :=
                                                  [Png.header x10 x10];
                                                errored := true |} |})
                           None None "https://example.com/favicon.ico"
                           ltac:(discriminate))
                   {| status := 200; contentType := None;
                      readableStream :=
                        Some {| pending := [Png.header x10 x10];
                                errored := true |} |}
                   {| pending := [Png.header x10 x10]; errored := true |}
                   eq_refl ltac:(simpl; lia) eq_refl)).
    reflexivity.
Defined.

Lemma checkIcon_events_match_output_witness :
  exists out : CheckIconOutput,
    snd (check Png.metadata (always (png_response None x30 x30))
               (Some "https://example.com/favicon.png") None (Some 48))
    = Return (Some out)
    /\ forall n,
         In (Event.square n)
            (events (fst (check Png.metadata
                                (always (png_response None x30 x30))
                                (Some "https://example.com/favicon.png")
                                None (Some 48)))) ->
         width out = Some n /\ height out = Some n.
Proof.
  eexists. split; [reflexivity|].
  apply (checkIcon_events_match_output Png.metadata
           (always (png_response None x30 x30)) None (Some 48)
           (Some "https://example.com/favicon.png")).
  reflexivity.
Defined.

Lemma checkIcon_output_shape_witness :
  exists out : CheckIconOutput,
    snd (check Png.metadata (always (png_response None x20 x10))
               (Some "https://example.com/favicon.png") None None)
    = Return (Some out)
    /\ url out = Some "https://example.com/favicon.png"
    /\ width out <> Some 0 /\ height out <> Some 0.
Proof.
  eexists. split; [reflexivity|].
  pose proof (checkIcon_output_shape Png.metadata
                (always (png_response None x20 x10)) None None
                (Some "https://example.com/favicon.png") _ eq_refl)
    as (Hurl & Hw & Hh & _).
  exact (conj Hurl (conj Hw Hh)).
Defined.

(** ** Any observer sees what the recorder records *)

Lemma report_dimensions_processorOf {S : Type} (handle : S -> Event.t -> S)
    (meta : Metadata.t) (expectedWidthHeight : option Z) (s : S) :
  report_dimensions (processorOf handle) meta expectedWidthHeight s
  = (fold_left handle (dimension_events meta expectedWidthHeight) s,
     Return tt).
Proof.
  unfold dimension_events, report_dimensions.
  destruct meta as [[meta_width|] [meta_height|]];
    cbn [Metadata.width Metadata.height]; try reflexivity.
  destruct (Truthy.num (Some meta_width) && Truthy.num (Some meta_height));
    [|reflexivity].
  destruct (negb (meta_width =? meta_height)); [reflexivity|].
  destruct expectedWidthHeight as [expected|]; [|reflexivity].
  destruct (Truthy.num (Some expected)); [|reflexivity].
  destruct (meta_width =? expected); reflexivity.
Qed.

(** X16. The recorder stands for every observer: for an observer whose
    callbacks apply a handler to its state, and a fetcher that gives the
    server's answers, a check ends in the state that the handler reaches
    on the recorded events, taken in order from the initial state, and
    completes as the recorded check does. *)
Theorem checkIcon_any_observer {S : Type} (handle : S -> Event.t -> S)
    (s0 : S) (sharp_metadata : Buffer -> Completion Metadata.t)
    (server : Server) (iconUrl : option string)
    (mimeType : option string) (expectedWidthHeight : option Z) :
  checkIcon sharp_metadata iconUrl (processorOf handle) (answering server)
            mimeType expectedWidthHeight s0
  = (fold_left handle
       (events (fst (check sharp_metadata server iconUrl mimeType
                           expectedWidthHeight))) s0,
     snd (check sharp_metadata server iconUrl mimeType expectedWidthHeight)).
Proof.
  rewrite check_outcome_correct. unfold check_outcome.
  destruct iconUrl as [[|c rest]|]; [reflexivity| |reflexivity].
  cbn [Truthy.str Truthy.str_or negb].
  unfold checkIcon, bind, answering. cbn beta iota.
  destruct (server (String c rest) mimeType) as [res|e]; [|reflexivity].
  destruct (status res =? 404); [reflexivity|].
  rewrite Z.geb_leb. destruct (300 <=? status res); [reflexivity|].
  destruct (readableStream res) as [stream|]; [|reflexivity].
  cbn [downloadable processorOf]. unfold lift.
  rewrite readableStreamToBuffer_spec.
  destruct (errored stream); [reflexivity|].
  destruct (sharp_metadata (List.concat (pending stream))) as [meta|e];
    [|reflexivity].
  rewrite report_dimensions_processorOf. reflexivity.
Qed.

(** ** The resolver: results are absolute and stable *)

Lemma startsWith_empty (s : string) : startsWith s "" = true.
Proof. destruct s; reflexivity. Qed.

Lemma startsWith_append (a b p : string) :
  startsWith a p = true -> startsWith (a ++ b) p = true.
Proof.
  unfold startsWith. revert a.
  induction p as [|x p IH]; intros a; [intros _; apply startsWith_empty|].
  destruct a as [|y a]; [discriminate|]. cbn [prefix append].
  destruct (ascii_dec x y); [apply IH | discriminate].
Qed.

Lemma startsWith_common (a b p : string) :
  startsWith (a ++ b) (a ++ p) = startsWith b p.
Proof.
  unfold startsWith. induction a as [|x a IH]; [reflexivity|].
  cbn [prefix append]. destruct (ascii_dec x x); [exact IH | contradiction].
Qed.

Section ResolverStability.

Variable new_URL : string -> Completion URL.

(** X17. Against a base of the [http] or [https] scheme every reference
    resolves, the result starts with [http://] or [https://], and
    resolving the result again, against any base, parsable or not, gives
    it back unchanged. *)
Theorem mergeUrlAndPath_result_is_absolute (baseUrl reference : string)
    (url : URL) :
  new_URL baseUrl = Return url ->
  is_http_url url ->
  exists merged,
    mergeUrlAndPath new_URL baseUrl reference = Return merged
    /\ (startsWith merged "http://" = true
        \/ startsWith merged "https://" = true)
    /\ forall otherBase,
         mergeUrlAndPath new_URL otherBase merged = Return merged.
Proof.
  intros Hbase (Hscheme & Horigin & Hhref).
  assert (Hstable : forall merged,
             startsWith merged "http://" = true
             \/ startsWith merged "https://" = true ->
             forall otherBase,
               mergeUrlAndPath new_URL otherBase merged = Return merged).
  { intros merged [H|H] otherBase; unfold mergeUrlAndPath; rewrite H;
      [reflexivity | rewrite orb_true_r; reflexivity]. }
  assert (Hlift : forall s rest,
             startsWith s (protocol url ++ "//") = true ->
             startsWith (s ++ rest) "http://" = true
             \/ startsWith (s ++ rest) "https://" = true).
  { intros s rest Hs. destruct Hscheme as [E|E]; rewrite E in Hs;
      [left | right]; apply startsWith_append; exact Hs. }
  unfold mergeUrlAndPath at 1.
  destruct (startsWith reference "http://") eqn:Hhttp.
  { exists reference. cbn [orb]. auto. }
  destruct (startsWith reference "https://") eqn:Hhttps.
  { exists reference. cbn [orb]. auto. }
  cbn [orb]. rewrite Hbase.
  destruct (startsWith reference "//") eqn:Hrel.
  - eexists. split; [reflexivity|].
    assert (Habs : startsWith (protocol url ++ reference) "http://" = true
                   \/ startsWith (protocol url ++ reference) "https://"
                      = true).
    { destruct Hscheme as [E|E]; rewrite E; [left | right].
      - apply (eq_trans (startsWith_common "http:" reference "//")), Hrel.
      - apply (eq_trans (startsWith_common "https:" reference "//")), Hrel. }
    split; [exact Habs | apply Hstable, Habs].
  - destruct (startsWith reference "/").
    + eexists. split; [reflexivity|].
      split; [|apply Hstable]; apply Hlift, Horigin.
    + eexists. split; [reflexivity|].
      split; [|apply Hstable]; apply Hlift, Hhref.
Qed.

End ResolverStability.

Lemma mergeUrlAndPath_result_is_absolute_witness :
  exists merged,
    mergeUrlAndPath PlainURL.parse "https://example.com/docs"
                    "img/favicon.ico" = Return merged
    /\ (startsWith merged "http://" = true
        \/ startsWith merged "https://" = true)
    /\ forall otherBase,
         mergeUrlAndPath PlainURL.parse otherBase merged = Return merged.
Proof.
  apply (mergeUrlAndPath_result_is_absolute PlainURL.parse
           "https://example.com/docs" "img/favicon.ico"
           {| protocol := "https:"; origin := "https://example.com";
              href := "https://example.com/docs" |}).
  - reflexivity.
  - split; [right; reflexivity | split; reflexivity].
Defined.

(** ** The fetcher over the platform's fetch *)

(** X18. The request that [fetchFetcher] sends declares a content type
    that is never empty: the one it was given when that is a non-empty
    string, otherwise the one inferred from the URL; and it names the
    checker as user agent. *)
Theorem fetchFetcher_request_headers (url : string)
    (contentType : option string) :
  exists sent,
    fetchFetcher_headers url contentType
    = [("Content-Type", sent);
       ("user-agent", "RealFaviconGenerator Favicon Checker")]
    /\ sent <> ""
    /\ (forall declared, contentType = Some declared -> declared <> "" ->
                         sent = declared)
    /\ (contentType = None \/ contentType = Some "" ->
        sent = pathToMimeType url).
Proof.
  eexists. split; [reflexivity|]. split; [|split].
  - destruct contentType as [[|c declared]|]; cbn;
      try apply pathToMimeType_nonempty; discriminate.
  - intros declared -> Hne. destruct declared; [contradiction | reflexivity].
  - intros [-> | ->]; reflexivity.
Qed.

(** X19. What [fetchFetcher] returns for a response of the platform: the
    status and the body as they are, and the [Content-Type] of the
    response unless it is absent or empty, which both give null; so the
    content type of a [FetchResponse] built by [fetchFetcher] is never the
    empty string. A rejected fetch is rejected with the same error. *)
Theorem fetchFetcher_response {W : Type}
    (fetch : string -> list (string * string) -> M W Response)
    (url : string) (contentType0 : option string) (w w' : W) :
  (forall resp,
      fetch url (fetchFetcher_headers url contentType0) w
      = (w', Return resp) ->
      exists res,
        fetchFetcher fetch url contentType0 w = (w', Return res)
        /\ status res = Response_status resp
        /\ readableStream res = Response_body resp
        /\ contentType res <> Some ""
        /\ (forall declared,
               Response_Content_Type resp = Some declared ->
               declared <> "" -> contentType res = Some declared)
        /\ (Response_Content_Type resp = None
            \/ Response_Content_Type resp = Some "" ->
            contentType res = None))
  /\ (forall e,
         fetch url (fetchFetcher_headers url contentType0) w
         = (w', Throw e) ->
         fetchFetcher fetch url contentType0 w = (w', Throw e)).
Proof.
  unfold fetchFetcher, bind. split.
  - intros resp ->. eexists. split; [reflexivity|].
    cbn [status readableStream contentType].
    repeat split.
    + destruct (Response_Content_Type resp) as [[|c declared]|];
        discriminate.
    + intros declared -> Hne.
      destruct declared; [contradiction | reflexivity].
    + intros [-> | ->]; reflexivity.
  - intros e ->. reflexivity.
Qed.

(** ** The size attribute parser: what it accepts *)

Lemma is_digit_value (c : ascii) :
  is_digit c = true -> 0 <= Sizes.digit_value c <= 9.
Proof.
  destruct c as [[|] [|] [|] [|] [|] [|] [|] [|]];
    intros H; try discriminate H; cbv; split; discriminate.
Qed.

Lemma parseInt_nonnegative (s : string) :
  forallb_string is_digit s = true -> 0 <= Sizes.parseInt s.
Proof.
  unfold Sizes.parseInt.
  enough (G : forall acc, 0 <= acc ->
              forallb_string is_digit s = true ->
              0 <= (fix go (acc : Z) (s : string) : Z :=
                      match s with
                      | "" => acc
                      | String c rest =>
                          go (10 * acc + Sizes.digit_value c) rest
                      end) acc s)
    by (apply G; lia).
  induction s as [|c s IH]; intros acc Hacc Hall; [exact Hacc|].
  cbn [forallb_string] in Hall. apply andb_prop in Hall as [Hc Hs].
  apply IH; [|exact Hs].
  pose proof (is_digit_value c Hc). lia.
Qed.

Lemma string_of_uint_digits (d : Decimal.uint) :
  forallb_string is_digit (DecimalString.NilEmpty.string_of_uint d) = true.
Proof. induction d; cbn; auto. Qed.

Lemma parseInt_string_of_uint (d a : Decimal.uint) :
  (fix go (acc : Z) (s : string) : Z :=
     match s with
     | "" => acc
     | String c rest => go (10 * acc + Sizes.digit_value c) rest
     end) (Z.of_N (DecimalPos.Unsigned.of_lu a)) (DecimalString.NilEmpty.string_of_uint d)
  = Z.of_N (DecimalPos.Unsigned.of_lu (Decimal.revapp d a)).
Proof.
  revert a. induction d; intros a; cbn [DecimalString.NilEmpty.string_of_uint Decimal.revapp];
    [reflexivity|..];
    rewrite <- IHd; f_equal; cbn [DecimalPos.Unsigned.of_lu];
    match goal with
    | |- context [Sizes.digit_value ?c] =>
        let v := eval vm_compute in (Sizes.digit_value c) in
        change (Sizes.digit_value c) with v
    end; lia.
Qed.

Lemma parseInt_decimal (n : N) : Sizes.parseInt (decimal n) = Z.of_N n.
Proof.
  unfold decimal, Sizes.parseInt.
  pose proof (parseInt_string_of_uint (N.to_uint n) Decimal.Nil) as H.
  cbn [DecimalPos.Unsigned.of_lu Z.of_N] in H. rewrite H.
  change (Decimal.revapp (N.to_uint n) Decimal.Nil) with (Decimal.rev (N.to_uint n)).
  rewrite <- DecimalPos.Unsigned.of_uint_alt.
  change (Pos.of_uint (N.to_uint n)) with (N.of_uint (N.to_uint n)).
  rewrite DecimalN.Unsigned.of_to. reflexivity.
Qed.

Lemma decimal_nonempty (n : N) : decimal n <> "".
Proof.
  unfold decimal. destruct n as [|p]; [discriminate|].
  cbn [N.to_uint]. pose proof (DecimalPos.Unsigned.to_uint_nonnil p) as Hnil.
  destruct (Pos.to_uint p); [contradiction|..]; discriminate.
Qed.

Lemma decimal_injective (n m : N) : decimal n = decimal m -> n = m.
Proof.
  unfold decimal. intros H.
  apply DecimalN.Unsigned.to_uint_inj.
  apply (f_equal DecimalString.NilEmpty.uint_of_string) in H.
  rewrite !DecimalString.NilEmpty.usu in H. congruence.
Qed.

Lemma occurrence_after_digit_free (pre rest : string) :
  forallb_string (fun c => negb (is_digit c)) pre = true ->
  forall before g1 g2 after,
    Sizes.occurrence (pre ++ rest) before g1 g2 after ->
    (String.length pre <= String.length before)%nat.
Proof.
  induction pre as [|c pre IH]; intros Hfree before g1 g2 after Hocc;
    [simpl; lia|].
  cbn [forallb_string] in Hfree. apply andb_prop in Hfree as [Hc Hpre].
  cbn [append] in Hocc.
  destruct (occurrence_unshift _ _ _ _ _ _ Hocc)
    as [-> | (before' & -> & Hocc')].
  - destruct Hocc as (Heq & Hg1 & _ & Hdigits & _).
    destruct g1 as [|d g1]; [congruence|].
    cbn in Heq. injection Heq as <- _.
    cbn [forallb_string] in Hdigits.
    apply andb_prop in Hdigits as [Hd _].
    rewrite Hd in Hc. discriminate.
  - simpl. apply le_n_S. exact (IH Hpre _ _ _ _ Hocc').
Qed.

(** The search on a string whose first digits are a size token. *)
Lemma regexp_match_first_token (pre g1 g2 after : string) :
  forallb_string (fun c => negb (is_digit c)) pre = true ->
  g1 <> "" -> g2 <> "" ->
  forallb_string is_digit g1 = true ->
  forallb_string is_digit g2 = true ->
  Sizes.starts_with_digit after = false ->
  Sizes.regexp_match (pre ++ g1 ++ "x" ++ g2 ++ after) = Some (g1, g2).
Proof.
  intros Hfree Hg1 Hg2 Hd1 Hd2 Hafter.
  apply (regexp_match_complete _ pre g1 g2 after).
  split; [|split].
  - repeat split; assumption.
  - exact Hafter.
  - intros before' h1 h2 after' Hocc.
    exact (occurrence_after_digit_free _ _ Hfree _ _ _ _ Hocc).
Qed.

Lemma parseSizesAttribute_of_match (sizes g1 g2 : string) :
  Sizes.regexp_match sizes = Some (g1, g2) ->
  parseSizesAttribute (Some sizes)
  = if String.eqb g1 g2 then Some (Sizes.parseInt g1) else None.
Proof.
  intros Hmatch. destruct sizes as [|c sizes]; [discriminate Hmatch|].
  cbn [parseSizesAttribute]. rewrite Hmatch.
  destruct (String.eqb g1 g2); reflexivity.
Qed.

(** X20. The first size token decides alone: in a string that has no
    digit before a token [<digits>x<digits>], the parser returns null
    when the two groups of the token are not the same text, and the
    number of the token, for a number below 2^53, when they are,
    whatever follows the token, other sizes included. *)
Theorem parseSizesAttribute_first_token_decides
    (pre g1 g2 after : string) :
  forallb_string (fun c => negb (is_digit c)) pre = true ->
  g1 <> "" -> g2 <> "" ->
  forallb_string is_digit g1 = true ->
  forallb_string is_digit g2 = true ->
  Sizes.starts_with_digit after = false ->
  (g1 <> g2 ->
   parseSizesAttribute (Some (pre ++ g1 ++ "x" ++ g2 ++ after)) = None)
  /\ (g1 = g2 ->
      Sizes.parseInt g1 < 2 ^ 53 ->
      parseSizesAttribute (Some (pre ++ g1 ++ "x" ++ g2 ++ after))
      = Some (Sizes.parseInt g1)).
Proof.
  intros Hfree Hg1 Hg2 Hd1 Hd2 Hafter.
  rewrite (parseSizesAttribute_of_match _ g1 g2)
    by (apply regexp_match_first_token; assumption).
  split.
  - intros Hne. apply String.eqb_neq in Hne. rewrite Hne. reflexivity.
  - intros <- _. rewrite String.eqb_refl. reflexivity.
Qed.

Lemma parseSizesAttribute_first_token_decides_witness :
  parseSizesAttribute (Some ("any " ++ "16" ++ "x" ++ "32" ++ " 48x48"))
  = None
  /\ parseSizesAttribute (Some ("any " ++ "16" ++ "x" ++ "16" ++ " 48x48"))
     = Some 16.
Proof.
  split.
  - apply (proj1 (parseSizesAttribute_first_token_decides
                    "any " "16" "32" " 48x48"
                    eq_refl ltac:(discriminate) ltac:(discriminate)
                    eq_refl eq_refl eq_refl)).
    discriminate.
  - apply (proj2 (parseSizesAttribute_first_token_decides
                    "any " "16" "16" " 48x48"
                    eq_refl ltac:(discriminate) ltac:(discriminate)
                    eq_refl eq_refl eq_refl)); reflexivity.
Defined.

(** X21. Writing a width and a height in decimal around an [x] and
    parsing the result gives the width back when the two are equal, and
    null when they differ; zero is a size like any other. (The width is
    taken below 2^53, where a JavaScript number holds it exactly.) *)
Theorem parseSizesAttribute_round_trip (w h : N) :
  (w < 2 ^ 53)%N ->
  parseSizesAttribute (Some (decimal w ++ "x" ++ decimal h))
  = if (w =? h)%N then Some (Z.of_N w) else None.
Proof.
  intros _.
  pose proof (regexp_match_first_token "" (decimal w) (decimal h) ""
                eq_refl (decimal_nonempty w) (decimal_nonempty h)
                (string_of_uint_digits _) (string_of_uint_digits _)
                eq_refl) as Hmatch.
  cbn [append] in Hmatch. rewrite (append_nil_r (decimal h)) in Hmatch.
  change ("x" ++ decimal h) with (String "x" (decimal h)).
  rewrite (parseSizesAttribute_of_match _ _ _ Hmatch), parseInt_decimal.
  destruct (N.eqb_spec w h) as [->|Hne].
  - rewrite String.eqb_refl. reflexivity.
  - destruct (String.eqb_spec (decimal w) (decimal h)) as [E|_];
      [|reflexivity].
    destruct (Hne (decimal_injective _ _ E)).
Qed.

Lemma parseSizesAttribute_round_trip_witness :
  parseSizesAttribute (Some (decimal 512 ++ "x" ++ decimal 512))
  = Some 512
  /\ parseSizesAttribute (Some (decimal 0 ++ "x" ++ decimal 0)) = Some 0.
Proof.
  split.
  - apply (parseSizesAttribute_round_trip 512 512). reflexivity.
  - apply (parseSizesAttribute_round_trip 0 0). reflexivity.
Defined.

(** X22. The parser never invents a size: when it returns a number, the
    number is not negative and the string holds a run of digits, then
    [x], then the same run of digits again; and a returned number below
    2^53 is the number that this run denotes. In particular a string
    with no lower-case [x] gives null. *)
Theorem parseSizesAttribute_sound (sizes : option string) (n : Z) :
  parseSizesAttribute sizes = Some n ->
  0 <= n
  /\ exists before d after,
       sizes = Some (before ++ d ++ "x" ++ d ++ after)
       /\ d <> ""
       /\ forallb_string is_digit d = true
       /\ (n < 2 ^ 53 -> n = Sizes.parseInt d).
Proof.
  destruct sizes as [[|c s]|]; try discriminate.
  cbn [parseSizesAttribute].
  destruct (Sizes.regexp_match (String c s)) as [[g1 g2]|] eqn:Hmatch;
    [|discriminate].
  destruct (String.eqb_spec g1 g2) as [<-|_]; [|discriminate].
  cbn [negb]. intros [= <-].
  destruct (regexp_match_sound _ _ _ Hmatch)
    as (before & after & (Heq & Hg1 & _ & Hd1 & _) & _).
  split; [apply parseInt_nonnegative, Hd1|].
  exists before, g1, after. rewrite Heq. auto.
Qed.

Lemma parseSizesAttribute_sound_witness :
  0 <= 180
  /\ exists before d after,
       Some "apple 180x180" = Some (before ++ d ++ "x" ++ d ++ after)
       /\ d <> ""
       /\ forallb_string is_digit d = true
       /\ (180 < 2 ^ 53 -> 180 = Sizes.parseInt d).
Proof.
  apply (parseSizesAttribute_sound (Some "apple 180x180") 180).
  reflexivity.
Defined.

(** ** The data URL of a file *)

Section FileFacts.

Variable filePathToReadableStream : string -> Completion ReadableStream.

(** X23. [filePathToDataUrl] gives the data URL of the whole file, typed
    by what follows the last dot of its path, however the file was cut in
    chunks; it is the [content] that a check returns for an icon of the
    same path and bytes served with a status below 300 and without a
    content type. *)
Theorem filePathToDataUrl_whole_file (filePath : string)
    (chunks : list Uint8Array) :
  filePathToReadableStream filePath
  = Return {| pending := chunks; errored := false |} ->
  exists dataUrl,
    filePathToDataUrl filePathToReadableStream filePath = Return dataUrl
    /\ dataUrl = "data:" ++ pathToMimeType filePath ++ ";base64,"
                 ++ Base64.encode (List.concat chunks)
    /\ (forall sharp_metadata meta chunks' code mimeType expected,
           filePath <> "" ->
           List.concat chunks' = List.concat chunks ->
           code < 300 ->
           sharp_metadata (List.concat chunks') = Return meta ->
           exists out,
             snd (check sharp_metadata
                        (always {| status := code; contentType := None;
                                   readableStream :=
                                     Some {| pending := chunks';
                                             errored := false |} |})
                        (Some filePath) mimeType expected)
             = Return (Some out)
             /\ content out = Some dataUrl).
Proof.
  intros Hopen. eexists. split; [|split; [reflexivity|]].
  { unfold filePathToDataUrl. rewrite Hopen, readableStreamToBuffer_spec.
    reflexivity. }
  intros sharp_metadata meta chunks' code mimeType expected
         Hpath Hsame Hcode Hmeta.
  rewrite check_outcome_correct. unfold check_outcome.
  destruct filePath as [|c rest]; [congruence|].
  cbn [Truthy.str Truthy.str_or negb always status
       readableStream contentType errored pending].
  destruct (Z.eqb_spec code 404); [lia|].
  destruct (Z.leb_spec 300 code); [lia|].
  rewrite Hmeta. eexists. split; [reflexivity|].
  cbn [content]. rewrite Hsame. reflexivity.
Qed.

End FileFacts.

Lemma filePathToDataUrl_whole_file_witness :
  exists dataUrl,
    filePathToDataUrl
      (fun _ => Return {| pending := [Png.signature; skipn 8 (Png.header x10 x10)];
                          errored := false |})
      "public/favicon-16x16.png" = Return dataUrl
    /\ dataUrl = "data:image/png;base64,iVBORw0KGgoAAAANSUhEUgAAABAAAAAQ".
Proof.
  destruct (filePathToDataUrl_whole_file
              (fun _ => Return {| pending := [Png.signature;
                                              skipn 8 (Png.header x10 x10)];
                                  errored := false |})
              "public/favicon-16x16.png"
              [Png.signature; skipn 8 (Png.header x10 x10)] eq_refl)
    as (dataUrl & Hfile & Hurl & _).
  exists dataUrl. split; [exact Hfile | exact Hurl].
Defined.

(** ** Data URLs can be read back *)

Local Open Scope N_scope.

Lemma digit_table (k : N) :
  k < 64 ->
  Base64Inverse.value (Base64.digit k) = Some k
  /\ Ascii.eqb (Base64.digit k) "=" = false.
Proof.
  intros Hk. destruct k as [|p]; [split; reflexivity|].
  do 6 (try destruct p as [p|p|]); try (split; reflexivity); lia.
Qed.

Lemma lor_shiftl_add (a b k : N) :
  b < 2 ^ k -> N.lor (N.shiftl a k) b = a * 2 ^ k + b.
Proof.
  intros Hb. rewrite <- N.shiftl_mul_pow2.
  rewrite N.add_nocarry_lxor, N.lxor_lor; try reflexivity;
    apply N.bits_inj; intros m; rewrite N.land_spec, N.bits_0;
    destruct (N.lt_ge_cases m k) as [Hm|Hm].
  - rewrite N.shiftl_spec_low by assumption. reflexivity.
  - rewrite (N.testbit_eqb b m), (N.div_small b (2 ^ m)); 
      [apply andb_false_r|].
    apply N.lt_le_trans with (2 ^ k); [assumption|].
    apply N.pow_le_mono_r; lia.
  - rewrite N.shiftl_spec_low by assumption. reflexivity.
  - rewrite (N.testbit_eqb b m), (N.div_small b (2 ^ m)); 
      [apply andb_false_r|].
    apply N.lt_le_trans with (2 ^ k); [assumption|].
    apply N.pow_le_mono_r; lia.
Qed.

Lemma sextet_arith (n s : N) :
  Base64.sextet n s = Base64.digit ((n / 2 ^ s) mod 64).
Proof.
  unfold Base64.sextet. rewrite N.shiftr_div_pow2.
  change 63 with (N.ones 6). rewrite N.land_ones. reflexivity.
Qed.

Lemma mod64_lt (x : N) : x mod 64 < 64.
Proof. apply N.mod_lt. discriminate. Qed.

Lemma regroup_Z (b1 b2 b3 : Z) :
  (0 <= b1 <= 255 -> 0 <= b2 <= 255 -> 0 <= b3 <= 255 ->
   let n := b1 * 65536 + b2 * 256 + b3 in
   let i1 := (n / 262144) mod 64 in
   let i2 := (n / 4096) mod 64 in
   let i3 := (n / 64) mod 64 in
   let i4 := (n / 1) mod 64 in
   i1 * 4 + i2 / 16 = b1
   /\ (i2 mod 16) * 16 + i3 / 4 = b2
   /\ (i3 mod 4) * 64 + i4 = b3)%Z.
Proof.
  intros H1 H2 H3. cbv zeta. rewrite Z.div_1_r.
  Z.div_mod_to_equations. lia.
Qed.

Lemma regroup (b1 b2 b3 : N) :
  b1 <= 255 -> b2 <= 255 -> b3 <= 255 ->
  let n := b1 * 65536 + b2 * 256 + b3 in
  let i1 := (n / 262144) mod 64 in
  let i2 := (n / 4096) mod 64 in
  let i3 := (n / 64) mod 64 in
  let i4 := (n / 1) mod 64 in
  i1 * 4 + i2 / 16 = b1
  /\ (i2 mod 16) * 16 + i3 / 4 = b2
  /\ (i3 mod 4) * 64 + i4 = b3.
Proof.
  intros H1 H2 H3. cbv zeta.
  destruct (regroup_Z (Z.of_N b1) (Z.of_N b2) (Z.of_N b3))
    as (E1 & E2 & E3); try lia.
  repeat split; apply N2Z.inj;
    rewrite ?N2Z.inj_add, ?N2Z.inj_mul, ?N2Z.inj_div, ?N2Z.inj_mod,
            ?N2Z.inj_add, ?N2Z.inj_mul, ?N2Z.inj_div, ?N2Z.inj_mod,
            ?N2Z.inj_add, ?N2Z.inj_mul;
    assumption.
Qed.

Lemma group3 (b1 b2 b3 : byte) :
  let n := N.lor (N.lor (N.shiftl (Byte.to_N b1) 16)
                        (N.shiftl (Byte.to_N b2) 8)) (Byte.to_N b3) in
  Base64Inverse.group (Base64.sextet n 18) (Base64.sextet n 12)
                      (Base64.sextet n 6) (Base64.sextet n 0)
  = Some [b1; b2; b3].
Proof.
  intros n.
  pose proof (Byte.to_N_bounded b1) as H1.
  pose proof (Byte.to_N_bounded b2) as H2.
  pose proof (Byte.to_N_bounded b3) as H3.
  assert (Hn : n = Byte.to_N b1 * 65536 + Byte.to_N b2 * 256 + Byte.to_N b3).
  { subst n. change 16 with (8 + 8) at 1.
    rewrite <- N.shiftl_shiftl, <- N.shiftl_lor.
    rewrite (lor_shiftl_add _ (Byte.to_N b2) 8) by (cbn; lia).
    rewrite lor_shiftl_add by (cbn; lia).
    change (2 ^ 8) with 256. lia. }
  rewrite !sextet_arith. unfold Base64Inverse.group.
  change (2 ^ 18) with 262144. change (2 ^ 12) with 4096.
  change (2 ^ 6) with 64. change (2 ^ 0) with 1.
  destruct (regroup _ _ _ H1 H2 H3) as (E1 & E2 & E3).
  rewrite <- Hn in E1, E2, E3.
  destruct (digit_table _ (mod64_lt (n / 262144))) as [-> _].
  destruct (digit_table _ (mod64_lt (n / 4096))) as [-> _].
  destruct (digit_table _ (mod64_lt (n / 64))) as [-> ->].
  destruct (digit_table _ (mod64_lt (n / 1))) as [-> ->].
  rewrite E1, E2, E3, !Byte.of_to_N. reflexivity.
Qed.

Lemma group2 (b1 b2 : byte) :
  let n := N.lor (N.shiftl (Byte.to_N b1) 16) (N.shiftl (Byte.to_N b2) 8) in
  Base64Inverse.group (Base64.sextet n 18) (Base64.sextet n 12)
                      (Base64.sextet n 6) "="
  = Some [b1; b2].
Proof.
  intros n.
  pose proof (Byte.to_N_bounded b1) as H1.
  pose proof (Byte.to_N_bounded b2) as H2.
  assert (Hn : n = Byte.to_N b1 * 65536 + Byte.to_N b2 * 256 + 0).
  { subst n. change 16 with (8 + 8) at 1.
    rewrite <- N.shiftl_shiftl, <- N.shiftl_lor.
    rewrite (lor_shiftl_add _ (Byte.to_N b2) 8) by (cbn; lia).
    rewrite N.shiftl_mul_pow2. change (2 ^ 8) with 256. lia. }
  rewrite !sextet_arith. unfold Base64Inverse.group.
  change (2 ^ 18) with 262144. change (2 ^ 12) with 4096.
  change (2 ^ 6) with 64.
  destruct (regroup _ _ 0 H1 H2 ltac:(lia)) as (E1 & E2 & _).
  rewrite <- Hn in E1, E2.
  destruct (digit_table _ (mod64_lt (n / 262144))) as [-> _].
  destruct (digit_table _ (mod64_lt (n / 4096))) as [-> _].
  destruct (digit_table _ (mod64_lt (n / 64))) as [-> ->].
  rewrite E1, E2, !Byte.of_to_N. reflexivity.
Qed.

Lemma group1 (b1 : byte) :
  let n := N.shiftl (Byte.to_N b1) 16 in
  Base64Inverse.group (Base64.sextet n 18) (Base64.sextet n 12) "=" "="
  = Some [b1].
Proof.
  intros n.
  pose proof (Byte.to_N_bounded b1) as H1.
  assert (Hn : n = Byte.to_N b1 * 65536 + 0 * 256 + 0).
  { subst n. rewrite N.shiftl_mul_pow2. change (2 ^ 16) with 65536. lia. }
  rewrite !sextet_arith. unfold Base64Inverse.group.
  change (2 ^ 18) with 262144. change (2 ^ 12) with 4096.
  destruct (regroup _ 0 0 H1 ltac:(lia) ltac:(lia)) as (E1 & _ & _).
  rewrite <- Hn in E1.
  destruct (digit_table _ (mod64_lt (n / 262144))) as [-> _].
  destruct (digit_table _ (mod64_lt (n / 4096))) as [-> _].
  cbn [Ascii.eqb Bool.eqb]. rewrite E1, Byte.of_to_N. reflexivity.
Qed.

Lemma decode_encode (bs : list byte) :
  Base64Inverse.decode (Base64.encode bs) = Some bs.
Proof.
  enough (G : forall n bs, (List.length bs <= n)%nat ->
             Base64Inverse.decode (Base64.encode bs) = Some bs)
    by (apply (G (List.length bs)); lia).
  clear bs. induction n as [n IH] using lt_wf_ind. intros bs Hlen.
  destruct bs as [|b1 [|b2 [|b3 rest]]].
  - reflexivity.
  - cbn [Base64.encode Base64Inverse.decode]. rewrite group1. reflexivity.
  - cbn [Base64.encode Base64Inverse.decode]. rewrite group2. reflexivity.
  - cbn [Base64.encode Base64Inverse.decode].
    rewrite group3, (IH (List.length rest)) by (simpl in Hlen; lia).
    reflexivity.
Qed.

Local Close Scope N_scope.

Lemma append_cancel_l (a x y : string) : a ++ x = a ++ y -> x = y.
Proof.
  induction a as [|c a IH]; cbn [append]; [auto|].
  intros [= H]. exact (IH H).
Qed.

Lemma length_append (a b : string) :
  String.length (a ++ b) = (String.length a + String.length b)%nat.
Proof. induction a as [|c a IH]; cbn; [reflexivity | now rewrite IH]. Qed.

(** X24. A data URL loses nothing: the text after [;base64,] decodes to
    the bytes of the buffer, so two buffers with the same data URL, for
    one MIME type, are the same buffer. *)
Theorem bufferToDataUrl_lossless (mimeType : string) (buffer : Buffer) :
  (exists payload,
      bufferToDataUrl buffer mimeType
      = "data:" ++ mimeType ++ ";base64," ++ payload
      /\ Base64Inverse.decode payload = Some buffer)
  /\ forall other : Buffer,
       bufferToDataUrl other mimeType = bufferToDataUrl buffer mimeType ->
       other = buffer.
Proof.
  split.
  - exists (Base64.encode buffer). split; [reflexivity | apply decode_encode].
  - unfold bufferToDataUrl, toString_base64. intros other H.
    apply (append_cancel_l "data:") in H.
    apply append_cancel_l in H.
    apply (append_cancel_l ";base64,") in H.
    apply (f_equal Base64Inverse.decode) in H.
    rewrite !decode_encode in H. congruence.
Qed.

(** X25. The size of a data URL: thirteen characters for [data:] and
    [;base64,], the MIME type, and four characters for every three bytes
    of the buffer, the last group being padded to four. *)
Theorem bufferToDataUrl_length (mimeType : string) (buffer : Buffer) :
  String.length (bufferToDataUrl buffer mimeType)
  = (13 + String.length mimeType + 4 * ((List.length buffer + 2) / 3))%nat.
Proof.
  unfold bufferToDataUrl, toString_base64.
  rewrite !length_append, base64_length. cbn [String.length]. lia.
Qed.

Lemma fetchFetcher_response_witness :
  exists res,
    fetchFetcher
      (fun _ _ (w : unit) =>
         (w, Return {| Response_status := 200;
                       Response_Content_Type := Some "";
                       Response_body := None |}))
      "https://example.com/favicon.ico" None tt
    = (tt, Return res)
    /\ status res = 200
    /\ readableStream res = None
    /\ contentType res <> Some "".
Proof.
  destruct (proj1 (fetchFetcher_response
                     (fun _ _ (w : unit) =>
                        (w, Return {| Response_status := 200;
                                      Response_Content_Type := Some "";
                                      Response_body := None |}))
                     "https://example.com/favicon.ico" None tt tt)
                  _ eq_refl)
    as (res & Hres & Hstatus & Hbody & Htype & _).
  exists res. auto.
Defined.
